(** * gl_nullify: the OpenGL stub library, embedded and verified

    Source: [headless_tools/gl_nullify.c].  The library is a flat list of
    stand-ins for OpenGL entry points.  Its only persistent datum is the
    static counter [fake_id]; a few entry points write through a pointer the
    caller supplies; almost all of them print one line on [stderr].

    The embedding is shallow: every C function is a computation in a small
    state-and-fault monad over a [world] holding the counter, the caller's
    memory and the diagnostic stream. *)

From Stdlib Require Import ZArith List Lia.
From stdpp Require Import base option list gmap strings.

Open Scope Z_scope.

(** ** C data *)

Module C.

(** [unsigned int] is 32 bits wide on the target (x86_64); arithmetic on it
    is taken modulo [UINT_MOD]. *)
Definition UINT_MOD : Z := 4294967296.

Definition wrap_uint (z : Z) : Z := z mod UINT_MOD.

(** Pointers are byte addresses; [NULL] is address 0.  An [int] or
    [unsigned int] occupies [SIZEOF_INT] bytes, so [a[i]] lives at
    [a + SIZEOF_INT * i]. *)
Definition NULL : Z := 0.
Definition SIZEOF_INT : Z := 4.

Definition index (a i : Z) : Z := a + SIZEOF_INT * i.

End C.
Import C.

(** ** The world the library runs in *)

(** One argument of a [fprintf] call, tagged with the C type it is passed at
    ([float] arguments are promoted to [double]; they are kept as the bit
    pattern the caller passed, the library never computes with them). *)
Inductive arg : Type :=
  | Aint (z : Z)
  | Auint (z : Z)
  | Along (z : Z)
  | Adouble (bits : Z).

(** - [fake_id]: the static counter of the source;
    - [heap]: the caller's memory, one entry per addressable 32-bit cell; an
      address outside the domain (such as [NULL]) cannot be written;
    - [stderr]: the diagnostic stream, one (format, arguments) record per
      [fprintf];
    - [writes]: ghost trace of every store the library performed, oldest
      first, as (address, value). *)
Record world : Type := World {
  fake_id : Z;
  heap : gmap Z Z;
  stderr : list (string * list arg);
  writes : list (Z * Z)
}.

(** [static unsigned int fake_id = 1;] with the caller's memory [m]. *)
Definition initial (m : gmap Z Z) : world := World 1 m [] [].

(** ** The monad: state passing, [None] is a memory fault *)

Definition M (A : Type) : Type := world -> option (A * world).

Definition ret {A} (a : A) : M A := fun w => Some (a, w).

Definition bind {A B} (m : M A) (k : A -> M B) : M B :=
  fun w => match m w with
           | Some (a, w') => k a w'
           | None => None
           end.

Notation "x <- m ;; k" := (bind m (fun x => k))
  (at level 90, m at level 80, right associativity).
Notation "m ;;; k" := (bind m (fun _ => k))
  (at level 90, right associativity).

(** [#define DEBUG_LOG 1] *)
Definition DEBUG_LOG : bool := true.

Definition newline : string := String (Ascii.ascii_of_nat 10) EmptyString.

(** [#define LOG(fmt, ...) fprintf(stderr, "[gl_nullify] " fmt "\n", ##__VA_ARGS__)]
    when [DEBUG_LOG], nothing otherwise. *)
Definition LOG (fmt : string) (args : list arg) : M unit :=
  fun w =>
    if DEBUG_LOG
    then Some (tt, World (fake_id w) (heap w)
                         (stderr w ++ [(("[gl_nullify] " ++ fmt ++ newline)%string, args)])
                         (writes w))
    else Some (tt, w).

(** [fake_id++]: yields the old value, the counter wraps as [unsigned int]. *)
Definition fake_id_post_incr : M Z :=
  fun w => Some (fake_id w,
                 World (wrap_uint (fake_id w + 1)) (heap w) (stderr w) (writes w)).

(** Reading the counter, as the [LOG] lines of the create functions do. *)
Definition get_fake_id : M Z :=
  fun w => Some (fake_id w, w).

(** [*a = v], a 4-byte store: faults unless [a] is a cell of the caller's
    memory.  Memory is kept cell by cell: the caller is taken to pass pointers
    to whole [int] cells, and an address that is not the start of a cell is
    treated as unmapped, which is stricter than the machine (a store into the
    middle of an array goes through there). *)
Definition store (a v : Z) : M unit :=
  fun w => match heap w !! a with
           | Some _ => Some (tt, World (fake_id w) (<[a:=v]> (heap w)) (stderr w)
                                       (writes w ++ [(a, v)]))
           | None => None
           end.

(** ** The intercepted entry points, in source order *)

Open Scope string_scope.
Open Scope Z_scope.

(** *** Draw calls *)

Definition glDrawArrays (mode first count : Z) : M unit :=
  LOG "glDrawArrays(mode=%d, first=%d, count=%d)" [Aint mode; Aint first; Aint count].

Definition glDrawElements (mode count type indices : Z) : M unit :=
  LOG "glDrawElements(mode=%d, count=%d)" [Aint mode; Aint count].

Definition glDrawArraysInstanced (mode first count instancecount : Z) : M unit :=
  LOG "glDrawArraysInstanced(count=%d, instances=%d)" [Aint count; Aint instancecount].

Definition glDrawElementsInstanced (mode count type indices instancecount : Z) : M unit :=
  LOG "glDrawElementsInstanced(count=%d, instances=%d)" [Aint count; Aint instancecount].

(** *** Buffer swap *)

Definition glXSwapBuffers (dpy drawable : Z) : M unit :=
  LOG "glXSwapBuffers" [].

(** *** Clear operations *)

Definition glClear (mask : Z) : M unit :=
  LOG "glClear(mask=0x%x)" [Auint mask].

Definition glClearColor (r g b a : Z) : M unit :=
  LOG "glClearColor(%.2f, %.2f, %.2f, %.2f)" [Adouble r; Adouble g; Adouble b; Adouble a].

(** *** Identifier generation

    The four generate functions share one loop,
    [for (int i = 0; i < n; i++) out[i] = fake_id++;].
    [gen_loop] is that loop from index [i] on; [fuel] bounds the number of
    iterations and [Z.to_nat n] is always enough ([gen_loop_fuel] below). *)

Fixpoint gen_loop (fuel : nat) (n out i : Z) : M unit :=
  match fuel with
  | O => ret tt
  | S fuel' =>
      if i <? n
      then id <- fake_id_post_incr ;;
           store (index out i) id ;;;
           gen_loop fuel' n out (i + 1)
      else ret tt
  end.

(** *** Texture operations *)

Definition glGenTextures (n textures : Z) : M unit :=
  LOG "glGenTextures(n=%d)" [Aint n] ;;;
  gen_loop (Z.to_nat n) n textures 0.

Definition glDeleteTextures (n textures : Z) : M unit :=
  LOG "glDeleteTextures(n=%d)" [Aint n].

Definition glBindTexture (target texture : Z) : M unit :=
  LOG "glBindTexture(target=0x%x, texture=%u)" [Aint target; Auint texture].

Definition glTexImage2D (target level internalformat width height
                         border format type data : Z) : M unit :=
  LOG "glTexImage2D(%dx%d)" [Aint width; Aint height].

Definition glTexSubImage2D (target level xoffset yoffset
                            width height format type data : Z) : M unit :=
  LOG "glTexSubImage2D(%dx%d)" [Aint width; Aint height].

(** *** Buffer operations *)

Definition glGenBuffers (n buffers : Z) : M unit :=
  LOG "glGenBuffers(n=%d)" [Aint n] ;;;
  gen_loop (Z.to_nat n) n buffers 0.

Definition glDeleteBuffers (n buffers : Z) : M unit :=
  LOG "glDeleteBuffers(n=%d)" [Aint n].

Definition glBindBuffer (target buffer : Z) : M unit :=
  LOG "glBindBuffer(target=0x%x, buffer=%u)" [Aint target; Auint buffer].

Definition glBufferData (target size data usage : Z) : M unit :=
  LOG "glBufferData(size=%ld)" [Along size].

Definition glBufferSubData (target offset size data : Z) : M unit :=
  LOG "glBufferSubData(size=%ld)" [Along size].

(** *** Shader operations *)

Definition glCreateShader (type : Z) : M Z :=
  cur <- get_fake_id ;;
  LOG "glCreateShader(type=0x%x) -> %u" [Aint type; Auint cur] ;;;
  fake_id_post_incr.

Definition glDeleteShader (shader : Z) : M unit :=
  LOG "glDeleteShader(%u)" [Auint shader].

Definition glShaderSource (shader count string length : Z) : M unit :=
  LOG "glShaderSource(shader=%u)" [Auint shader].

Definition glCompileShader (shader : Z) : M unit :=
  LOG "glCompileShader(%u)" [Auint shader].

Definition glCreateProgram : M Z :=
  cur <- get_fake_id ;;
  LOG "glCreateProgram() -> %u" [Auint cur] ;;;
  fake_id_post_incr.

Definition glDeleteProgram (program : Z) : M unit :=
  LOG "glDeleteProgram(%u)" [Auint program].

Definition glAttachShader (program shader : Z) : M unit :=
  LOG "glAttachShader(prog=%u, shader=%u)" [Auint program; Auint shader].

Definition glLinkProgram (program : Z) : M unit :=
  LOG "glLinkProgram(%u)" [Auint program].

Definition glUseProgram (program : Z) : M unit :=
  LOG "glUseProgram(%u)" [Auint program].

(** *** VAO operations *)

Definition glGenVertexArrays (n arrays : Z) : M unit :=
  LOG "glGenVertexArrays(n=%d)" [Aint n] ;;;
  gen_loop (Z.to_nat n) n arrays 0.

Definition glDeleteVertexArrays (n arrays : Z) : M unit :=
  LOG "glDeleteVertexArrays(n=%d)" [Aint n].

Definition glBindVertexArray (array : Z) : M unit :=
  LOG "glBindVertexArray(%u)" [Auint array].

(** *** State changes *)

Definition glEnable (cap : Z) : M unit :=
  LOG "glEnable(0x%x)" [Aint cap].

Definition glDisable (cap : Z) : M unit :=
  LOG "glDisable(0x%x)" [Aint cap].

Definition glBlendFunc (sfactor dfactor : Z) : M unit :=
  LOG "glBlendFunc(0x%x, 0x%x)" [Aint sfactor; Aint dfactor].

Definition glViewport (x y width height : Z) : M unit :=
  LOG "glViewport(%d, %d, %d, %d)" [Aint x; Aint y; Aint width; Aint height].

Definition glScissor (x y width height : Z) : M unit :=
  LOG "glScissor(%d, %d, %d, %d)" [Aint x; Aint y; Aint width; Aint height].

(** *** Framebuffer operations *)

Definition glGenFramebuffers (n framebuffers : Z) : M unit :=
  LOG "glGenFramebuffers(n=%d)" [Aint n] ;;;
  gen_loop (Z.to_nat n) n framebuffers 0.

Definition glDeleteFramebuffers (n framebuffers : Z) : M unit :=
  LOG "glDeleteFramebuffers(n=%d)" [Aint n].

Definition glBindFramebuffer (target framebuffer : Z) : M unit :=
  LOG "glBindFramebuffer(target=0x%x, fb=%u)" [Aint target; Auint framebuffer].

Definition glCheckFramebufferStatus (target : Z) : M Z :=
  LOG "glCheckFramebufferStatus -> GL_FRAMEBUFFER_COMPLETE" [] ;;;
  ret 0x8CD5.

(** *** Query functions *)

Definition glGetIntegerv (pname params : Z) : M unit :=
  LOG "glGetIntegerv(pname=0x%x)" [Aint pname] ;;;
  if params =? NULL then ret tt else store params 1.

(** The result points at a static C string; the model returns the string. *)
Definition glGetString (name : Z) : M string :=
  LOG "glGetString(name=0x%x)" [Aint name] ;;;
  let vendor := "GL Nullify" in
  let renderer := "Null Renderer" in
  let version := "4.5" in
  let extensions := EmptyString in
  if name =? 0x1F00 then ret vendor
  else if name =? 0x1F01 then ret renderer
  else if name =? 0x1F02 then ret version
  else if name =? 0x1F03 then ret extensions
  else ret EmptyString.

Definition glGetError : M Z :=
  ret 0.

Definition glGetShaderiv (shader pname params : Z) : M unit :=
  LOG "glGetShaderiv(shader=%u, pname=0x%x)" [Auint shader; Aint pname] ;;;
  if params =? NULL then ret tt
  else if pname =? 0x8B81 then store params 1
       else store params 0.

Definition glGetProgramiv (program pname params : Z) : M unit :=
  LOG "glGetProgramiv(prog=%u, pname=0x%x)" [Auint program; Aint pname] ;;;
  if params =? NULL then ret tt
  else if pname =? 0x8B82 then store params 1
       else store params 0.


Close Scope string_scope.

(** ** Calls, histories and what the caller observes *)

(** One constructor per exported symbol, carrying the arguments of the call. *)
Inductive call : Type :=
  | DrawArrays (mode first count : Z)
  | DrawElements (mode count type indices : Z)
  | DrawArraysInstanced (mode first count instancecount : Z)
  | DrawElementsInstanced (mode count type indices instancecount : Z)
  | XSwapBuffers (dpy drawable : Z)
  | Clear (mask : Z)
  | ClearColor (r g b a : Z)
  | GenTextures (n textures : Z)
  | DeleteTextures (n textures : Z)
  | BindTexture (target texture : Z)
  | TexImage2D (target level internalformat width height border format type data : Z)
  | TexSubImage2D (target level xoffset yoffset width height format type data : Z)
  | GenBuffers (n buffers : Z)
  | DeleteBuffers (n buffers : Z)
  | BindBuffer (target buffer : Z)
  | BufferData (target size data usage : Z)
  | BufferSubData (target offset size data : Z)
  | CreateShader (type : Z)
  | DeleteShader (shader : Z)
  | ShaderSource (shader count string length : Z)
  | CompileShader (shader : Z)
  | CreateProgram
  | DeleteProgram (program : Z)
  | AttachShader (program shader : Z)
  | LinkProgram (program : Z)
  | UseProgram (program : Z)
  | GenVertexArrays (n arrays : Z)
  | DeleteVertexArrays (n arrays : Z)
  | BindVertexArray (array : Z)
  | Enable (cap : Z)
  | Disable (cap : Z)
  | BlendFunc (sfactor dfactor : Z)
  | Viewport (x y width height : Z)
  | Scissor (x y width height : Z)
  | GenFramebuffers (n framebuffers : Z)
  | DeleteFramebuffers (n framebuffers : Z)
  | BindFramebuffer (target framebuffer : Z)
  | CheckFramebufferStatus (target : Z)
  | GetIntegerv (pname params : Z)
  | GetString (name : Z)
  | GetError
  | GetShaderiv (shader pname params : Z)
  | GetProgramiv (program pname params : Z).

(** What a call hands back in its return register. *)
Inductive retval : Type :=
  | Rvoid
  | Ruint (z : Z)
  | Rint (z : Z)
  | Rstr (s : string).

Definition void (m : M unit) : M retval := _ <- m ;; ret Rvoid.
Definition uint (m : M Z) : M retval := z <- m ;; ret (Ruint z).
Definition int (m : M Z) : M retval := z <- m ;; ret (Rint z).
Definition str (m : M string) : M retval := s <- m ;; ret (Rstr s).

Definition exec (c : call) : M retval :=
  match c with
  | DrawArrays mode first count => void (glDrawArrays mode first count)
  | DrawElements mode count type indices => void (glDrawElements mode count type indices)
  | DrawArraysInstanced mode first count ic => void (glDrawArraysInstanced mode first count ic)
  | DrawElementsInstanced mode count type indices ic =>
      void (glDrawElementsInstanced mode count type indices ic)
  | XSwapBuffers dpy drawable => void (glXSwapBuffers dpy drawable)
  | Clear mask => void (glClear mask)
  | ClearColor r g b a => void (glClearColor r g b a)
  | GenTextures n textures => void (glGenTextures n textures)
  | DeleteTextures n textures => void (glDeleteTextures n textures)
  | BindTexture target texture => void (glBindTexture target texture)
  | TexImage2D target level internalformat width height border format type data =>
      void (glTexImage2D target level internalformat width height border format type data)
  | TexSubImage2D target level xoffset yoffset width height format type data =>
      void (glTexSubImage2D target level xoffset yoffset width height format type data)
  | GenBuffers n buffers => void (glGenBuffers n buffers)
  | DeleteBuffers n buffers => void (glDeleteBuffers n buffers)
  | BindBuffer target buffer => void (glBindBuffer target buffer)
  | BufferData target size data usage => void (glBufferData target size data usage)
  | BufferSubData target offset size data => void (glBufferSubData target offset size data)
  | CreateShader type => uint (glCreateShader type)
  | DeleteShader shader => void (glDeleteShader shader)
  | ShaderSource shader count string length => void (glShaderSource shader count string length)
  | CompileShader shader => void (glCompileShader shader)
  | CreateProgram => uint glCreateProgram
  | DeleteProgram program => void (glDeleteProgram program)
  | AttachShader program shader => void (glAttachShader program shader)
  | LinkProgram program => void (glLinkProgram program)
  | UseProgram program => void (glUseProgram program)
  | GenVertexArrays n arrays => void (glGenVertexArrays n arrays)
  | DeleteVertexArrays n arrays => void (glDeleteVertexArrays n arrays)
  | BindVertexArray array => void (glBindVertexArray array)
  | Enable cap => void (glEnable cap)
  | Disable cap => void (glDisable cap)
  | BlendFunc sfactor dfactor => void (glBlendFunc sfactor dfactor)
  | Viewport x y width height => void (glViewport x y width height)
  | Scissor x y width height => void (glScissor x y width height)
  | GenFramebuffers n framebuffers => void (glGenFramebuffers n framebuffers)
  | DeleteFramebuffers n framebuffers => void (glDeleteFramebuffers n framebuffers)
  | BindFramebuffer target framebuffer => void (glBindFramebuffer target framebuffer)
  | CheckFramebufferStatus target => int (glCheckFramebufferStatus target)
  | GetIntegerv pname params => void (glGetIntegerv pname params)
  | GetString name => str (glGetString name)
  | GetError => int glGetError
  | GetShaderiv shader pname params => void (glGetShaderiv shader pname params)
  | GetProgramiv program pname params => void (glGetProgramiv program pname params)
  end.

(** The classes of section 4.1 of the specification that the statements
    below quantify over. *)
Definition is_generate (c : call) : bool :=
  match c with
  | GenTextures _ _ | GenBuffers _ _ | GenVertexArrays _ _ | GenFramebuffers _ _ => true
  | _ => false
  end.

Definition is_create (c : call) : bool :=
  match c with
  | CreateShader _ | CreateProgram => true
  | _ => false
  end.

Definition is_allocating (c : call) : bool := is_generate c || is_create c.

Definition is_delete (c : call) : bool :=
  match c with
  | DeleteTextures _ _ | DeleteBuffers _ _ | DeleteShader _ | DeleteProgram _
  | DeleteVertexArrays _ _ | DeleteFramebuffers _ _ => true
  | _ => false
  end.

Definition is_pointer_query (c : call) : bool :=
  match c with
  | GetIntegerv _ _ | GetShaderiv _ _ _ | GetProgramiv _ _ _ => true
  | _ => false
  end.

(** The identifiers a call hands to the caller: the values a generate
    function stored into the output array, in order, or the value a create
    function returned. *)
Definition ids_of (c : call) (r : retval) (stored : list (Z * Z)) : list Z :=
  if is_generate c then stored.*2
  else if is_create c then match r with Ruint z => [z] | _ => [] end
  else [].

Record outcome : Type := Outcome {
  o_ret : retval;
  o_stored : list (Z * Z);
  o_ids : list Z
}.

(** Runs one call and records what it returned and stored. *)
Definition observe (c : call) : M outcome :=
  fun w => match exec c w with
           | Some (r, w') =>
               let stored := drop (length (writes w)) (writes w') in
               Some (Outcome r stored (ids_of c r stored), w')
           | None => None
           end.

(** A process lifetime: calls into the library interleaved with the host
    application changing its own memory ([Host m]: the memory is now [m]). *)
Inductive event : Type :=
  | Call (c : call)
  | Host (m : gmap Z Z).

Definition set_heap (m : gmap Z Z) : M unit :=
  fun w => Some (tt, World (fake_id w) m (stderr w) (writes w)).

Fixpoint run (h : list event) : M (list (call * outcome)) :=
  match h with
  | [] => ret []
  | Call c :: h' =>
      o <- observe c ;;
      t <- run h' ;;
      ret ((c, o) :: t)
  | Host m :: h' =>
      set_heap m ;;;
      run h'
  end.

(** All identifiers handed out during a run, oldest first. *)
Definition issued (t : list (call * outcome)) : list Z :=
  concat (map (fun co => o_ids co.2) t).

(** ** Vocabulary of the statements *)

(** [unsigned int] typing of the counter. *)
Definition counter_ok (w : world) : Prop := 0 <= fake_id w < UINT_MOD.

(** [frame w w']: the call that led from [w] to [w'] touched neither the
    counter nor the caller's memory (it may have printed a diagnostic). *)
Definition frame (w w' : world) : Prop :=
  fake_id w' = fake_id w /\ heap w' = heap w /\ writes w' = writes w.

(** The stores of [cnt] iterations that start at index [i] with counter [k]. *)
Definition gen_stores (out i k : Z) (cnt : nat) : list (Z * Z) :=
  map (fun j : nat => (index out (i + Z.of_nat j), wrap_uint (k + Z.of_nat j))) (seq 0 cnt).

(** The identifiers of [cnt] consecutive allocations from counter [k]. *)
Definition ids_from (k : Z) (cnt : nat) : list Z :=
  map (fun j : nat => wrap_uint (k + Z.of_nat j)) (seq 0 cnt).

(** The memory after the stores [l], applied oldest first. *)
Definition apply_stores (l : list (Z * Z)) (m : gmap Z Z) : gmap Z Z :=
  foldl (fun m av => <[av.1 := av.2]> m) m l.

(** The four generate functions called with count [n] and array [out]. *)
Definition generate_calls (n out : Z) : list call :=
  [GenTextures n out; GenBuffers n out; GenVertexArrays n out; GenFramebuffers n out].

(** The output pointer of a pointer query. *)
Definition params_of (c : call) : Z :=
  match c with
  | GetIntegerv _ params | GetShaderiv _ _ params | GetProgramiv _ _ params => params
  | _ => NULL
  end.

(** The value a pointer query stores. *)
Definition answer_of (c : call) : Z :=
  match c with
  | GetIntegerv _ _ => 1
  | GetShaderiv _ pname _ => if pname =? 0x8B81 then 1 else 0
  | GetProgramiv _ pname _ => if pname =? 0x8B82 then 1 else 0
  | _ => 0
  end.

(** The caller's side of the contract: every pointer the library will write
    through points at the caller's memory. *)
Definition safe_call (c : call) (w : world) : Prop :=
  match c with
  | GenTextures n out | GenBuffers n out | GenVertexArrays n out | GenFramebuffers n out =>
      forall j, 0 <= j < n -> is_Some (heap w !! index out j)
  | GetIntegerv _ params | GetShaderiv _ _ params | GetProgramiv _ _ params =>
      params = NULL \/ is_Some (heap w !! params)
  | _ => True
  end.

(** The same along a history: every call is safe in the world it is made in. *)
Fixpoint safe_run (h : list event) (w : world) : Prop :=
  match h with
  | [] => True
  | Call c :: h' =>
      safe_call c w /\ forall o w', observe c w = Some (o, w') -> safe_run h' w'
  | Host m :: h' => safe_run h' (World (fake_id w) m (stderr w) (writes w))
  end.

(** Concrete data for the examples: a caller's memory with an array of three
    cells at 100 and one of two cells at 200, and a small process that makes
    three textures, a shader, two buffers and a program. *)
Definition demo_heap : gmap Z Z :=
  list_to_map [(100, 0); (104, 0); (108, 0); (200, 7); (204, 7)].

Definition demo_history : list event :=
  [Call (GenTextures 3 100); Call (CreateShader 35633); Call (DeleteShader 4);
   Call (GenBuffers 2 200); Call GetError; Call CreateProgram].

Definition three_cells : gmap Z Z := list_to_map [(100, 0); (104, 0); (108, 0)].

(** The number of identifiers a call asks for: the count of a generate
    call (none when it is negative), one for a create call. *)
Definition demand_of (c : call) : nat :=
  match c with
  | GenTextures n _ | GenBuffers n _ | GenVertexArrays n _ | GenFramebuffers n _ => Z.to_nat n
  | CreateShader _ | CreateProgram => 1
  | _ => 0
  end.

Fixpoint demand (h : list event) : nat :=
  match h with
  | [] => 0
  | Call c :: h' => demand_of c + demand h'
  | Host _ :: h' => demand h'
  end.

(** The exported symbol behind each call. *)
Definition symbol (c : call) : string :=
  match c with
  | DrawArrays _ _ _ => "glDrawArrays"
  | DrawElements _ _ _ _ => "glDrawElements"
  | DrawArraysInstanced _ _ _ _ => "glDrawArraysInstanced"
  | DrawElementsInstanced _ _ _ _ _ => "glDrawElementsInstanced"
  | XSwapBuffers _ _ => "glXSwapBuffers"
  | Clear _ => "glClear"
  | ClearColor _ _ _ _ => "glClearColor"
  | GenTextures _ _ => "glGenTextures"
  | DeleteTextures _ _ => "glDeleteTextures"
  | BindTexture _ _ => "glBindTexture"
  | TexImage2D _ _ _ _ _ _ _ _ _ => "glTexImage2D"
  | TexSubImage2D _ _ _ _ _ _ _ _ _ => "glTexSubImage2D"
  | GenBuffers _ _ => "glGenBuffers"
  | DeleteBuffers _ _ => "glDeleteBuffers"
  | BindBuffer _ _ => "glBindBuffer"
  | BufferData _ _ _ _ => "glBufferData"
  | BufferSubData _ _ _ _ => "glBufferSubData"
  | CreateShader _ => "glCreateShader"
  | DeleteShader _ => "glDeleteShader"
  | ShaderSource _ _ _ _ => "glShaderSource"
  | CompileShader _ => "glCompileShader"
  | CreateProgram => "glCreateProgram"
  | DeleteProgram _ => "glDeleteProgram"
  | AttachShader _ _ => "glAttachShader"
  | LinkProgram _ => "glLinkProgram"
  | UseProgram _ => "glUseProgram"
  | GenVertexArrays _ _ => "glGenVertexArrays"
  | DeleteVertexArrays _ _ => "glDeleteVertexArrays"
  | BindVertexArray _ => "glBindVertexArray"
  | Enable _ => "glEnable"
  | Disable _ => "glDisable"
  | BlendFunc _ _ => "glBlendFunc"
  | Viewport _ _ _ _ => "glViewport"
  | Scissor _ _ _ _ => "glScissor"
  | GenFramebuffers _ _ => "glGenFramebuffers"
  | DeleteFramebuffers _ _ => "glDeleteFramebuffers"
  | BindFramebuffer _ _ => "glBindFramebuffer"
  | CheckFramebufferStatus _ => "glCheckFramebufferStatus"
  | GetIntegerv _ _ => "glGetIntegerv"
  | GetString _ => "glGetString"
  | GetError => "glGetError"
  | GetShaderiv _ _ _ => "glGetShaderiv"
  | GetProgramiv _ _ _ => "glGetProgramiv"
  end%string.

(** [glGetError] is the one entry point without a [LOG] line. *)
Definition is_logged (c : call) : bool :=
  match c with
  | GetError => false
  | _ => true
  end.

(** Two worlds that differ at most in what has been printed so far. *)
Definition same_but_stderr (w1 w2 : world) : Prop :=
  fake_id w1 = fake_id w2 /\ heap w1 = heap w2 /\ writes w1 = writes w2.

(** Two results that agree on everything but the diagnostic stream. *)
Definition same_result {A} (r1 r2 : option (A * world)) : Prop :=
  match r1, r2 with
  | Some (a1, w1), Some (a2, w2) => a1 = a2 /\ same_but_stderr w1 w2
  | None, None => True
  | _, _ => False
  end.

(** A computation whose outcome does not depend on what has been printed. *)
Definition respects {A} (m : M A) : Prop :=
  forall w1 w2, same_but_stderr w1 w2 -> same_result (m w1) (m w2).

(** A computation that prints nothing. *)
Definition quiet {A} (m : M A) : Prop :=
  forall w a w', m w = Some (a, w') -> stderr w' = stderr w.

(** The record [LOG fmt args] appends to the diagnostic stream. *)
Definition log_record (fmt : string) (args : list arg) : string * list arg :=
  (("[gl_nullify] " ++ fmt ++ newline)%string, args).

(** ** Reasoning principles *)

(** *** Arithmetic modulo 2^32 *)

Lemma UINT_MOD_pow : UINT_MOD = 2 ^ 32.
Proof. reflexivity. Qed.

Lemma wrap_uint_range z : 0 <= wrap_uint z < UINT_MOD.
Proof. unfold wrap_uint, UINT_MOD. apply Z.mod_pos_bound. lia. Qed.

Lemma wrap_uint_small z : 0 <= z < UINT_MOD -> wrap_uint z = z.
Proof. unfold wrap_uint. apply Z.mod_small. Qed.


Lemma frame_refl w : frame w w.
Proof. by repeat split. Qed.

Lemma frame_trans w1 w2 w3 : frame w1 w2 -> frame w2 w3 -> frame w1 w3.
Proof. unfold frame. intros (-> & -> & ->) (-> & -> & ->). done. Qed.

Lemma LOG_frame fmt args w : exists w', LOG fmt args w = Some (tt, w') /\ frame w w'.
Proof. unfold LOG. destruct DEBUG_LOG; eexists; (split; [reflexivity | by repeat split]). Qed.

(** Sequencing after a [LOG]: the rest runs in a world that differs from the
    current one by the diagnostic only. *)
Lemma bind_LOG {A} fmt args (k : M A) w :
  exists w0, frame w w0 /\ (LOG fmt args ;;; k) w = k w0.
Proof.
  destruct (LOG_frame fmt args w) as (w0 & E & F).
  exists w0. split; [done |]. unfold bind. by rewrite E.
Qed.

Ltac unfold_entry :=
  unfold exec, void, uint, int, str,
    glDrawArrays, glDrawElements, glDrawArraysInstanced, glDrawElementsInstanced,
    glXSwapBuffers, glClear, glClearColor, glDeleteTextures, glBindTexture,
    glTexImage2D, glTexSubImage2D, glDeleteBuffers, glBindBuffer, glBufferData,
    glBufferSubData, glDeleteShader, glShaderSource, glCompileShader,
    glDeleteProgram, glAttachShader, glLinkProgram, glUseProgram,
    glDeleteVertexArrays, glBindVertexArray, glEnable, glDisable, glBlendFunc,
    glViewport, glScissor, glDeleteFramebuffers, glBindFramebuffer,
    glCheckFramebufferStatus, glGetString, glGetError.

(** *** The generate loop *)

Lemma gen_stores_ids out i k cnt : (gen_stores out i k cnt).*2 = ids_from k cnt.
Proof.
  unfold gen_stores, ids_from. rewrite <- list_fmap_compose.
  by apply list_fmap_ext.
Qed.

Lemma gen_stores_S out i k cnt :
  0 <= k < UINT_MOD ->
  gen_stores out i k (S cnt) =
  (index out i, k) :: gen_stores out (i + 1) (wrap_uint (k + 1)) cnt.
Proof.
  intros Hk. unfold gen_stores. simpl seq. rewrite map_cons, <- seq_shift, map_map.
  f_equal.
  - rewrite !Z.add_0_r. by rewrite wrap_uint_small.
  - apply map_ext. intros j. f_equal.
    + f_equal. lia.
    + unfold wrap_uint. rewrite Zplus_mod_idemp_l. f_equal. lia.
Qed.

Lemma length_gen_stores out i k cnt : length (gen_stores out i k cnt) = cnt.
Proof. unfold gen_stores. by rewrite length_map, length_seq. Qed.

Lemma length_ids_from k cnt : length (ids_from k cnt) = cnt.
Proof. unfold ids_from. by rewrite length_map, length_seq. Qed.

Lemma ids_from_app k a b :
  ids_from k a ++ ids_from (wrap_uint (k + Z.of_nat a)) b = ids_from k (a + b).
Proof.
  unfold ids_from. rewrite seq_app, map_app. f_equal.
  rewrite Nat.add_0_l.
  replace (seq a b) with (map (Nat.add a) (seq 0 b))
    by (pose proof (fmap_add_seq a 0 b) as Hs; rewrite Nat.add_0_r in Hs; exact Hs).
  rewrite map_map. apply map_ext. intros j.
  unfold wrap_uint.
  rewrite Zplus_mod_idemp_l. f_equal. lia.
Qed.

(** More fuel than the loop needs changes nothing: the bound in the four
    generate functions never cuts the loop short. *)
Lemma gen_loop_fuel fuel n out i w :
  (Z.to_nat (n - i) <= fuel)%nat ->
  gen_loop fuel n out i w = gen_loop (Z.to_nat (n - i)) n out i w.
Proof.
  revert i w. induction fuel as [| fuel IH]; intros i w Hf.
  - by replace (Z.to_nat (n - i)) with 0%nat by lia.
  - simpl. destruct (Z.ltb_spec i n) as [Hlt | Hge].
    + replace (Z.to_nat (n - i)) with (S (Z.to_nat (n - (i + 1)))) by lia.
      simpl. apply Z.ltb_lt in Hlt as ->.
      unfold bind, fake_id_post_incr, store; simpl.
      destruct (heap w !! index out i); [| done].
      apply IH. lia.
    + replace (Z.to_nat (n - i)) with 0%nat by lia. done.
Qed.

(** What a completed loop has done. *)
Lemma gen_loop_inv fuel n out i w u w' :
  (Z.to_nat (n - i) <= fuel)%nat ->
  counter_ok w ->
  gen_loop fuel n out i w = Some (u, w') ->
  let cnt := Z.to_nat (n - i) in
  fake_id w' = wrap_uint (fake_id w + Z.of_nat cnt) /\
  writes w' = writes w ++ gen_stores out i (fake_id w) cnt /\
  heap w' = apply_stores (gen_stores out i (fake_id w) cnt) (heap w) /\
  stderr w' = stderr w.
Proof.
  revert i w. induction fuel as [| fuel IH]; intros i w Hf Hk E cnt; subst cnt.
  - replace (Z.to_nat (n - i)) with 0%nat by lia.
    inversion E; subst. simpl. rewrite Z.add_0_r, app_nil_r.
    by rewrite wrap_uint_small.
  - simpl in E. destruct (Z.ltb_spec i n) as [Hlt | Hge].
    + unfold bind, fake_id_post_incr, store in E; simpl in E.
      destruct (heap w !! index out i) eqn:Hc; [| done].
      apply IH in E; [| lia | apply wrap_uint_range]. simpl in E.
      destruct E as (E1 & E2 & E3 & E4).
      replace (Z.to_nat (n - i)) with (S (Z.to_nat (n - (i + 1)))) by lia.
      rewrite gen_stores_S by done.
      rewrite E1, E2, E3, E4. rewrite <- app_assoc. simpl.
      repeat split; try done.
      unfold wrap_uint. rewrite Zplus_mod_idemp_l. f_equal. lia.
    + replace (Z.to_nat (n - i)) with 0%nat by lia.
      inversion E; subst. simpl. rewrite Z.add_0_r, app_nil_r.
      by rewrite wrap_uint_small.
Qed.

(** The loop runs to its end when the cells [out[i..n-1]] are memory of the
    caller, and in this cell-by-cell memory only then. *)
Lemma gen_loop_total fuel n out i w :
  (forall j, i <= j < n -> is_Some (heap w !! index out j)) ->
  is_Some (gen_loop fuel n out i w).
Proof.
  revert i w. induction fuel as [| fuel IH]; intros i w Hv; [by eexists |].
  simpl. destruct (Z.ltb_spec i n) as [Hlt | Hge]; [| by eexists].
  unfold bind, fake_id_post_incr, store; simpl.
  destruct (Hv i) as [v ->]; [lia |].
  apply IH. simpl. intros j Hj.
  destruct (decide (index out i = index out j)) as [-> | Hne].
  - rewrite lookup_insert_eq. by eexists.
  - rewrite lookup_insert_ne by done. apply Hv. lia.
Qed.

Lemma gen_loop_valid fuel n out i w :
  (Z.to_nat (n - i) <= fuel)%nat ->
  is_Some (gen_loop fuel n out i w) ->
  forall j, i <= j < n -> is_Some (heap w !! index out j).
Proof.
  revert i w. induction fuel as [| fuel IH]; intros i w Hf Hs j Hj; [lia |].
  simpl in Hs. destruct Hj as [Hij Hjn].
  replace (i <? n) with true in Hs by (symmetry; apply Z.ltb_lt; lia).
  unfold bind, fake_id_post_incr, store in Hs; simpl in Hs.
  destruct (heap w !! index out i) eqn:Hc; [| by destruct Hs].
  destruct (decide (i = j)) as [<- | Hne]; [by eexists |].
  specialize (IH (i + 1) _ ltac:(lia) Hs j ltac:(lia)). simpl in IH.
  rewrite lookup_insert_ne in IH; [done |]. unfold index, SIZEOF_INT. lia.
Qed.

(** *** The generate functions *)

Lemma gen_body_inv fmt n out w u w' :
  counter_ok w ->
  (LOG fmt [Aint n] ;;; gen_loop (Z.to_nat n) n out 0) w = Some (u, w') ->
  fake_id w' = wrap_uint (fake_id w + Z.of_nat (Z.to_nat n)) /\
  writes w' = writes w ++ gen_stores out 0 (fake_id w) (Z.to_nat n) /\
  heap w' = apply_stores (gen_stores out 0 (fake_id w) (Z.to_nat n)) (heap w).
Proof.
  intros Hk E.
  destruct (bind_LOG fmt [Aint n] (gen_loop (Z.to_nat n) n out 0) w)
    as (w0 & (F1 & F2 & F3) & Eq).
  rewrite Eq in E. apply gen_loop_inv in E.
  - rewrite Z.sub_0_r in E. simpl in E. destruct E as (E1 & E2 & E3 & _).
    by rewrite E1, E2, E3, F1, F2, F3.
  - rewrite Z.sub_0_r. lia.
  - unfold counter_ok. by rewrite F1.
Qed.

Lemma gen_body_total fmt n out w :
  (forall j, 0 <= j < n -> is_Some (heap w !! index out j)) ->
  is_Some ((LOG fmt [Aint n] ;;; gen_loop (Z.to_nat n) n out 0) w).
Proof.
  intros Hv.
  destruct (bind_LOG fmt [Aint n] (gen_loop (Z.to_nat n) n out 0) w)
    as (w0 & (F1 & F2 & F3) & ->).
  apply gen_loop_total. by rewrite F2.
Qed.

Lemma gen_body_valid fmt n out w :
  is_Some ((LOG fmt [Aint n] ;;; gen_loop (Z.to_nat n) n out 0) w) ->
  forall j, 0 <= j < n -> is_Some (heap w !! index out j).
Proof.
  destruct (bind_LOG fmt [Aint n] (gen_loop (Z.to_nat n) n out 0) w)
    as (w0 & (F1 & F2 & F3) & ->).
  intros Hs j Hj. rewrite <- F2.
  eapply gen_loop_valid; [| exact Hs | exact Hj]. rewrite Z.sub_0_r. lia.
Qed.

Lemma void_Some (m : M unit) w r w' :
  void m w = Some (r, w') <-> r = Rvoid /\ m w = Some (tt, w').
Proof.
  unfold void, bind, ret. destruct (m w) as [[[] w1] |].
  - split; [intros [= <- <-] | intros [-> [= ->]]]; done.
  - split; [done | by intros [_ ?]].
Qed.

Lemma void_is_Some (m : M unit) w : is_Some (void m w) <-> is_Some (m w).
Proof.
  unfold void, bind, ret. destruct (m w) as [[[] w1] |]; split; intros [x Hx]; by eauto.
Qed.

Lemma generate_inv c n out w r w' :
  In c (generate_calls n out) ->
  counter_ok w ->
  exec c w = Some (r, w') ->
  r = Rvoid /\
  fake_id w' = wrap_uint (fake_id w + Z.of_nat (Z.to_nat n)) /\
  writes w' = writes w ++ gen_stores out 0 (fake_id w) (Z.to_nat n) /\
  heap w' = apply_stores (gen_stores out 0 (fake_id w) (Z.to_nat n)) (heap w).
Proof.
  intros Hc Hk E. simpl in Hc.
  destruct Hc as [<- | [<- | [<- | [<- | []]]]];
    apply void_Some in E as [-> E]; (split; [done |]);
    eapply gen_body_inv; eauto.
Qed.

Lemma generate_total c n out w :
  In c (generate_calls n out) ->
  (forall j, 0 <= j < n -> is_Some (heap w !! index out j)) ->
  is_Some (exec c w).
Proof.
  intros Hc Hv. simpl in Hc.
  destruct Hc as [<- | [<- | [<- | [<- | []]]]];
    apply void_is_Some; by apply gen_body_total.
Qed.

Lemma generate_valid c n out w :
  In c (generate_calls n out) ->
  is_Some (exec c w) ->
  forall j, 0 <= j < n -> is_Some (heap w !! index out j).
Proof.
  intros Hc Hs. simpl in Hc.
  destruct Hc as [<- | [<- | [<- | [<- | []]]]];
    apply void_is_Some in Hs; by eapply gen_body_valid.
Qed.

Lemma is_generate_calls c :
  is_generate c = true -> exists n out, In c (generate_calls n out).
Proof.
  destruct c; try discriminate; intros _; do 2 eexists; simpl; eauto.
Qed.

(** *** The create functions *)

Lemma glCreateShader_eq type w :
  exists w', glCreateShader type w = Some (fake_id w, w') /\
             fake_id w' = wrap_uint (fake_id w + 1) /\
             heap w' = heap w /\ writes w' = writes w.
Proof.
  unfold glCreateShader, bind, get_fake_id.
  destruct (LOG_frame "glCreateShader(type=0x%x) -> %u" [Aint type; Auint (fake_id w)] w)
    as (w0 & -> & F1 & F2 & F3).
  unfold fake_id_post_incr. rewrite F1, F2, F3. by eexists.
Qed.

Lemma glCreateProgram_eq w :
  exists w', glCreateProgram w = Some (fake_id w, w') /\
             fake_id w' = wrap_uint (fake_id w + 1) /\
             heap w' = heap w /\ writes w' = writes w.
Proof.
  unfold glCreateProgram, bind, get_fake_id.
  destruct (LOG_frame "glCreateProgram() -> %u" [Auint (fake_id w)] w)
    as (w0 & -> & F1 & F2 & F3).
  unfold fake_id_post_incr. rewrite F1, F2, F3. by eexists.
Qed.

Lemma create_eq c w :
  is_create c = true ->
  exists w', exec c w = Some (Ruint (fake_id w), w') /\
             fake_id w' = wrap_uint (fake_id w + 1) /\
             heap w' = heap w /\ writes w' = writes w.
Proof.
  destruct c; try discriminate; intros _; simpl; unfold uint, bind, ret.
  - destruct (glCreateShader_eq type w) as (w' & -> & H). by exists w'.
  - destruct (glCreateProgram_eq w) as (w' & -> & H). by exists w'.
Qed.

(** *** Calls that neither allocate nor take an output pointer *)

Lemma LOG_ret_frame {A} fmt args (a : A) w :
  exists w', (LOG fmt args ;;; ret a) w = Some (a, w') /\ frame w w'.
Proof.
  destruct (bind_LOG fmt args (ret a) w) as (w0 & F & ->). by exists w0.
Qed.

Lemma void_LOG_frame fmt args w :
  exists w', void (LOG fmt args) w = Some (Rvoid, w') /\ frame w w'.
Proof.
  destruct (LOG_frame fmt args w) as (w' & E & F).
  exists w'. split; [| done]. by apply void_Some.
Qed.

Lemma glGetString_frame name w :
  exists s w', glGetString name w = Some (s, w') /\ frame w w'.
Proof.
  unfold glGetString.
  repeat match goal with |- context [if ?b then _ else _] => destruct b end;
    eexists; apply LOG_ret_frame.
Qed.

Lemma exec_frame c w :
  is_allocating c = false ->
  is_pointer_query c = false ->
  exists r w', exec c w = Some (r, w') /\ frame w w'.
Proof.
  destruct c; try discriminate; intros _ _; simpl;
    try (eexists; unfold_entry; apply void_LOG_frame).
  - destruct (LOG_ret_frame "glCheckFramebufferStatus -> GL_FRAMEBUFFER_COMPLETE" [] 36053 w)
      as (w' & E & F).
    exists (Rint 36053), w'. split; [| done].
    unfold int, glCheckFramebufferStatus, bind at 1. by rewrite E.
  - destruct (glGetString_frame name w) as (s & w' & E & F).
    exists (Rstr s), w'. split; [| done]. unfold str, bind. by rewrite E.
  - exists (Rint 0), w. split; [done | apply frame_refl].
Qed.

(** *** The three queries that write through [params] *)

Lemma store_Some a v w u w' :
  store a v w = Some (u, w') <->
  is_Some (heap w !! a) /\
  w' = World (fake_id w) (<[a:=v]> (heap w)) (stderr w) (writes w ++ [(a, v)]).
Proof.
  unfold store. destruct (heap w !! a) as [x |]; destruct u.
  - split; [intros [= <-]; by eauto | by intros [_ ->]].
  - split; [done | intros [[x Hx] _]; done].
Qed.

Lemma guarded_store_Some fmt args params v w u w' :
  (LOG fmt args ;;; if params =? NULL then ret tt else store params v) w = Some (u, w') ->
  fake_id w' = fake_id w /\
  ((params = NULL /\ heap w' = heap w /\ writes w' = writes w) \/
   (params <> NULL /\ is_Some (heap w !! params) /\
    heap w' = <[params:=v]> (heap w) /\ writes w' = writes w ++ [(params, v)])).
Proof.
  destruct (bind_LOG fmt args (if params =? NULL then ret tt else store params v) w)
    as (w0 & (F1 & F2 & F3) & ->).
  destruct (Z.eqb_spec params NULL) as [-> | Hne].
  - intros [= _ <-]. split; [done |]. by left.
  - intros (Hs & ->)%store_Some. simpl. split; [done |]. right.
    by rewrite <- F2, <- F3.
Qed.

Lemma guarded_store_total fmt args params v w :
  params = NULL \/ is_Some (heap w !! params) ->
  is_Some ((LOG fmt args ;;; if params =? NULL then ret tt else store params v) w).
Proof.
  destruct (bind_LOG fmt args (if params =? NULL then ret tt else store params v) w)
    as (w0 & (F1 & F2 & F3) & ->).
  intros Hp. destruct (Z.eqb_spec params NULL) as [-> | Hne]; [by eexists |].
  destruct Hp as [? | [x Hx]]; [done |].
  unfold store. rewrite F2, Hx. by eexists.
Qed.

Lemma pointer_query_body c :
  is_pointer_query c = true ->
  exists fmt args,
    exec c = void (LOG fmt args ;;;
                   if params_of c =? NULL then ret tt else store (params_of c) (answer_of c)).
Proof.
  destruct c; try discriminate; intros _; simpl;
    unfold glGetIntegerv, glGetShaderiv, glGetProgramiv; try by do 2 eexists.
  - do 2 eexists. do 2 f_equal. by destruct (params =? NULL), (pname =? 35713).
  - do 2 eexists. do 2 f_equal. by destruct (params =? NULL), (pname =? 35714).
Qed.

Lemma pointer_query_inv c w r w' :
  is_pointer_query c = true ->
  exec c w = Some (r, w') ->
  r = Rvoid /\ fake_id w' = fake_id w /\
  ((params_of c = NULL /\ heap w' = heap w /\ writes w' = writes w) \/
   (params_of c <> NULL /\ is_Some (heap w !! params_of c) /\
    heap w' = <[params_of c := answer_of c]> (heap w) /\
    writes w' = writes w ++ [(params_of c, answer_of c)])).
Proof.
  intros Hq E. destruct (pointer_query_body c Hq) as (fmt & args & Eq).
  rewrite Eq in E. apply void_Some in E as [-> E]. split; [done |].
  by eapply guarded_store_Some.
Qed.

Lemma pointer_query_total c w :
  is_pointer_query c = true ->
  params_of c = NULL \/ is_Some (heap w !! params_of c) ->
  is_Some (exec c w).
Proof.
  intros Hq Hp. destruct (pointer_query_body c Hq) as (fmt & args & ->).
  apply void_is_Some. by apply guarded_store_total.
Qed.

(** *** One observed call *)

Lemma call_classes c :
  is_generate c = true /\ is_create c = false /\ is_pointer_query c = false \/
  is_generate c = false /\ is_create c = true /\ is_pointer_query c = false \/
  is_generate c = false /\ is_create c = false /\ is_pointer_query c = true \/
  is_generate c = false /\ is_create c = false /\ is_pointer_query c = false.
Proof. destruct c; simpl; tauto. Qed.

Lemma drop_writes_app (l l' : list (Z * Z)) : drop (length l) (l ++ l') = l'.
Proof. by rewrite drop_app_length. Qed.

Lemma drop_writes_same (l : list (Z * Z)) : drop (length l) l = [].
Proof. by rewrite drop_all. Qed.

Lemma observe_Some c w o w' :
  observe c w = Some (o, w') ->
  exec c w = Some (o_ret o, w') /\
  o_stored o = drop (length (writes w)) (writes w') /\
  o_ids o = ids_of c (o_ret o) (o_stored o).
Proof.
  unfold observe. destruct (exec c w) as [[r w1] |]; [| done].
  by intros [= <- <-].
Qed.

(** Every call hands out the next [length (o_ids o)] identifiers of the
    counter and advances the counter by as many. *)
Lemma observe_inv c w o w' :
  counter_ok w ->
  observe c w = Some (o, w') ->
  o_ids o = ids_from (fake_id w) (length (o_ids o)) /\
  fake_id w' = wrap_uint (fake_id w + Z.of_nat (length (o_ids o))) /\
  counter_ok w'.
Proof.
  intros Hk (E & Hst & Hids)%observe_Some.
  assert (Hgoal : o_ids o = ids_from (fake_id w) (length (o_ids o)) /\
                  fake_id w' = wrap_uint (fake_id w + Z.of_nat (length (o_ids o)))).
  { destruct (call_classes c) as [(Hg & Hc & Hq) | [(Hg & Hc & Hq) | [(Hg & Hc & Hq) | (Hg & Hc & Hq)]]];
      unfold ids_of in Hids; rewrite Hg, ?Hc in Hids.
    - destruct (is_generate_calls c Hg) as (n & out & Hin).
      destruct (generate_inv _ _ _ _ _ _ Hin Hk E) as (_ & E1 & E2 & _).
      rewrite Hst, E2, drop_writes_app, gen_stores_ids in Hids.
      rewrite Hids, length_ids_from. done.
    - destruct (create_eq c w Hc) as (w1 & E' & E1 & _).
      rewrite E' in E. injection E as Hr <-. rewrite <- Hr in Hids.
      rewrite Hids. simpl. unfold ids_from. simpl.
      rewrite Z.add_0_r, wrap_uint_small by done. done.
    - destruct (pointer_query_inv c w _ _ Hq E) as (_ & E1 & _).
      rewrite Hids. simpl. rewrite E1, Z.add_0_r, wrap_uint_small by done.
      done.
    - destruct (exec_frame c w) as (r & w1 & E' & E1 & _).
      { unfold is_allocating. by rewrite Hg, Hc. }
      { done. }
      rewrite E' in E. injection E as _ <-.
      rewrite Hids. simpl. rewrite Z.add_0_r, wrap_uint_small by done.
      done. }
  destruct Hgoal as [H1 H2]. repeat split; try done.
  all: rewrite H2; apply wrap_uint_range.
Qed.

(** *** Histories *)

Lemma run_cons_Call c h w t w' :
  run (Call c :: h) w = Some (t, w') <->
  exists o w1 t', observe c w = Some (o, w1) /\ run h w1 = Some (t', w') /\ t = (c, o) :: t'.
Proof.
  simpl. unfold bind, ret. split.
  - destruct (observe c w) as [[o w1] |]; [| done].
    destruct (run h w1) as [[t' w2] |] eqn:Er; [| done].
    intros E. injection E as <- <-. by exists o, w1, t'.
  - intros (o & w1 & t' & -> & -> & ->). done.
Qed.

Lemma run_cons_Host m h w :
  run (Host m :: h) w = run h (World (fake_id w) m (stderr w) (writes w)).
Proof. reflexivity. Qed.

Lemma issued_cons c o t : issued ((c, o) :: t) = o_ids o ++ issued t.
Proof. reflexivity. Qed.

(** The identifiers issued during a run are the consecutive values of the
    wrapping counter, starting from its value when the run began. *)
Lemma run_inv h w t w' :
  counter_ok w ->
  run h w = Some (t, w') ->
  issued t = ids_from (fake_id w) (length (issued t)) /\
  fake_id w' = wrap_uint (fake_id w + Z.of_nat (length (issued t))) /\
  counter_ok w'.
Proof.
  revert w t. induction h as [| [c | m] h IH]; intros w t Hk E.
  - injection E as <- <-. simpl. rewrite Z.add_0_r, wrap_uint_small by done. done.
  - apply run_cons_Call in E as (o & w1 & t' & Eo & Er & ->).
    destruct (observe_inv _ _ _ _ Hk Eo) as (I1 & I2 & Hk1).
    destruct (IH _ _ Hk1 Er) as (J1 & J2 & Hk').
    rewrite issued_cons, length_app. split; [| split; [| done]].
    + rewrite <- ids_from_app, <- I1, <- I2, <- J1. done.
    + rewrite J2, I2. unfold wrap_uint. rewrite Zplus_mod_idemp_l. f_equal. lia.
  - rewrite run_cons_Host in E. by apply IH in E.
Qed.

(** Each entry of a transcript is one observed call in some world. *)
Lemma run_transcript h w t w' c o :
  run h w = Some (t, w') ->
  In (c, o) t ->
  exists w1 w2, observe c w1 = Some (o, w2).
Proof.
  revert w t. induction h as [| [c0 | m] h IH]; intros w t E Hin.
  - injection E as <- <-. destruct Hin.
  - apply run_cons_Call in E as (o0 & w1 & t' & Eo & Er & ->).
    destruct Hin as [[= <- <-] | Hin]; [by eauto | by eapply IH].
  - rewrite run_cons_Host in E. by eapply IH.
Qed.

(** *** Calls that cannot fault *)

Lemma exec_total c w : safe_call c w <-> is_Some (exec c w).
Proof.
  destruct (call_classes c) as [(Hg & Hc & Hq) | [(Hg & Hc & Hq) | [(Hg & Hc & Hq) | (Hg & Hc & Hq)]]].
  - destruct (is_generate_calls c Hg) as (n & out & Hin). split.
    + intros Hs. eapply generate_total; [exact Hin |].
      simpl in Hin. by destruct Hin as [<- | [<- | [<- | [<- | []]]]].
    + intros Hs. pose proof (generate_valid _ _ _ _ Hin Hs) as Hv.
      simpl in Hin. by destruct Hin as [<- | [<- | [<- | [<- | []]]]].
  - destruct (create_eq c w Hc) as (w' & -> & _).
    split; [by eauto | by destruct c].
  - split.
    + intros Hs. apply pointer_query_total; [done |]. by destruct c.
    + intros [[r w'] E]. destruct (pointer_query_inv c w r w' Hq E) as (_ & _ & Hp).
      assert (params_of c = NULL \/ is_Some (heap w !! params_of c)) as Hp' by tauto.
      by destruct c.
  - destruct (exec_frame c w) as (r & w' & -> & _).
    { unfold is_allocating. by rewrite Hg, Hc. }
    { done. }
    split; [by eauto | by destruct c].
Qed.

Lemma observe_total c w : safe_call c w -> is_Some (observe c w).
Proof.
  intros [[r w'] E]%exec_total. unfold observe. rewrite E. by eexists.
Qed.

(** *** Arithmetic of the wrapping counter *)

Lemma wrap_uint_inj a b :
  wrap_uint a = wrap_uint b -> Z.abs (a - b) < UINT_MOD -> a = b.
Proof.
  unfold wrap_uint, UINT_MOD. intros E Hlt.
  pose proof (Z.div_mod a 4294967296 ltac:(lia)) as Ha.
  pose proof (Z.div_mod b 4294967296 ltac:(lia)) as Hb.
  rewrite E in Ha. nia.
Qed.

Lemma In_ids_from k cnt x :
  In x (ids_from k cnt) <-> exists j : nat, (j < cnt)%nat /\ x = wrap_uint (k + Z.of_nat j).
Proof.
  unfold ids_from. rewrite in_map_iff. split.
  - intros (j & <- & Hj%in_seq). exists j. split; [lia | done].
  - intros (j & Hj & ->). exists j. split; [done |]. apply in_seq. lia.
Qed.

Lemma lookup_ids_from k cnt (j : nat) :
  (j < cnt)%nat -> ids_from k cnt !! j = Some (wrap_uint (k + Z.of_nat j)).
Proof.
  intros Hj. unfold ids_from.
  change (map ?f ?l) with (f <$> l).
  by rewrite list_lookup_fmap, lookup_seq_lt.
Qed.

(** Fewer than [UINT_MOD + 1] consecutive identifiers are pairwise distinct. *)
Lemma NoDup_ids_from k cnt :
  Z.of_nat cnt <= UINT_MOD -> NoDup (ids_from k cnt).
Proof.
  intros Hc. unfold ids_from. change (map ?f ?l) with (f <$> l).
  apply NoDup_fmap_2_strong; [| apply NoDup_seq].
  intros x y Hx%elem_of_seq Hy%elem_of_seq E.
  apply wrap_uint_inj in E; lia.
Qed.

(** From the initial counter 1, fewer than [UINT_MOD] identifiers are the
    numbers 1, 2, ... themselves. *)
Lemma ids_from_1_small cnt :
  Z.of_nat cnt < UINT_MOD ->
  ids_from 1 cnt = map (fun j : nat => 1 + Z.of_nat j) (seq 0 cnt).
Proof.
  intros Hc. unfold ids_from. apply map_ext_in.
  intros j Hj%in_seq. apply wrap_uint_small. lia.
Qed.

(** *** Memory after a generate call *)

Lemma apply_stores_snoc l a v m :
  apply_stores (l ++ [(a, v)]) m = <[a:=v]> (apply_stores l m).
Proof. unfold apply_stores. by rewrite foldl_app. Qed.

Lemma apply_stores_lookup_ne l a m :
  ~ In a l.*1 -> apply_stores l m !! a = m !! a.
Proof.
  revert m. induction l as [| [a' v'] l IH]; intros m Hn; [done |].
  simpl in *. rewrite IH by tauto. apply lookup_insert_ne. tauto.
Qed.

Lemma index_inj out i j : index out i = index out j -> i = j.
Proof. unfold index, SIZEOF_INT. lia. Qed.

Lemma gen_stores_snoc out i k cnt :
  gen_stores out i k (S cnt) =
  gen_stores out i k cnt ++ [(index out (i + Z.of_nat cnt), wrap_uint (k + Z.of_nat cnt))].
Proof. unfold gen_stores. by rewrite seq_S, map_app. Qed.

(** After the loop, cell [out[i + j]] holds the [j]-th identifier issued;
    the cells of an array do not overlap, so no later store clobbers it. *)
Lemma apply_gen_stores_lookup out i k cnt m (j : nat) :
  (j < cnt)%nat ->
  apply_stores (gen_stores out i k cnt) m !! index out (i + Z.of_nat j)
  = Some (wrap_uint (k + Z.of_nat j)).
Proof.
  induction cnt as [| cnt IH]; intros Hj; [lia |].
  rewrite gen_stores_snoc, apply_stores_snoc.
  destruct (decide (j = cnt)) as [-> | Hne].
  - apply lookup_insert_eq.
  - rewrite lookup_insert_ne; [apply IH; lia |].
    intros E%index_inj. lia.
Qed.

(** Cells outside the array are left alone. *)
Lemma apply_gen_stores_other out i k cnt m a :
  (forall j : nat, (j < cnt)%nat -> a <> index out (i + Z.of_nat j)) ->
  apply_stores (gen_stores out i k cnt) m !! a = m !! a.
Proof.
  intros Ha. apply apply_stores_lookup_ne.
  unfold gen_stores. intros Hin.
  change (map ?f ?l) with (f <$> l) in Hin.
  rewrite <- list_fmap_compose in Hin.
  apply in_map_iff in Hin as (j & E & Hj%in_seq). simpl in E.
  apply (Ha j); [lia | done].
Qed.

(** *** Histories that cannot fault *)

Lemma run_total h w : safe_run h w -> is_Some (run h w).
Proof.
  revert w. induction h as [| [c | m] h IH]; intros w Hs.
  - by eexists.
  - destruct Hs as [Hc Hs]. destruct (observe_total c w Hc) as [[o w1] Eo].
    destruct (IH w1 (Hs _ _ Eo)) as [[t w'] Er].
    exists ((c, o) :: t, w'). apply run_cons_Call. by exists o, w1, t.
  - rewrite run_cons_Host. by apply IH.
Qed.

(** A run of [cnt] calls to [glCreateProgram] never faults, leaves the
    caller's memory alone and issues [cnt] identifiers. *)
Lemma run_creates cnt w :
  exists t w', run (repeat (Call CreateProgram) cnt) w = Some (t, w') /\
               length (issued t) = cnt /\ heap w' = heap w /\
               (forall c o, In (c, o) t -> c = CreateProgram).
Proof.
  revert w. induction cnt as [| cnt IH]; intros w.
  - exists [], w. by repeat split.
  - destruct (observe_total CreateProgram w I) as [[o w1] Eo].
    destruct (IH w1) as (t & w' & Er & Hlen & Hheap & Hall).
    exists ((CreateProgram, o) :: t), w'. split; [| split; [| split]].
    + apply run_cons_Call. by exists o, w1, t.
    + apply observe_Some in Eo as (E & Hst & Hids).
      destruct (create_eq CreateProgram w eq_refl) as (w2 & E' & _).
      rewrite E' in E. injection E as Hr _.
      rewrite issued_cons, length_app, Hlen, Hids, <- Hr. done.
    + apply observe_Some in Eo as (E & _).
      destruct (create_eq CreateProgram w eq_refl) as (w2 & E' & _ & Hh & _).
      rewrite E' in E. injection E as _ <-. by rewrite Hheap.
    + intros c o' [[= <- _] | Hin]; [done | by eapply Hall].
Qed.

Lemma gen_stores_seqZ out k n :
  0 <= k -> k + n <= UINT_MOD ->
  gen_stores out 0 k (Z.to_nat n) = map (fun j => (index out j, k + j)) (seqZ 0 n).
Proof.
  intros Hk Hn. unfold gen_stores, seqZ.
  change (?f <$> ?l) with (map f l). rewrite map_map.
  apply map_ext_in. intros j Hj%in_seq. f_equal.
  - f_equal. lia.
  - rewrite Z.add_0_r. apply wrap_uint_small. lia.
Qed.

Lemma counter_ok_initial m : counter_ok (initial m).
Proof. unfold counter_ok, UINT_MOD. simpl. lia. Qed.

(** From the initial state, as long as fewer than [UINT_MOD - 1] identifiers
    have been issued the counter is one more than their number, and they are
    1, 2, ... in order. *)
Lemma run_initial m h t w :
  run h (initial m) = Some (t, w) ->
  Z.of_nat (length (issued t)) < UINT_MOD ->
  issued t = map (fun j : nat => 1 + Z.of_nat j) (seq 0 (length (issued t))) /\
  fake_id w = wrap_uint (1 + Z.of_nat (length (issued t))).
Proof.
  intros E Hlen.
  destruct (run_inv _ _ _ _ (counter_ok_initial m) E) as (I1 & I2 & _).
  simpl in I1, I2. split; [| done].
  rewrite I1 at 1. by apply ids_from_1_small.
Qed.

(** * The claims *)

(** ** C1 *)

(** C1, refuted as stated: after 4294967297 calls of [glCreateProgram] in one
    process, the identifier 0 has been handed out by a create call, and the
    issued identifiers are not pairwise distinct: the 32-bit counter wrapped. *)
Lemma C1_counterexample :
  exists t w,
    run (repeat (Call CreateProgram) (Z.to_nat 4294967297)) (initial ∅) = Some (t, w) /\
    In 0 (issued t) /\
    ~ NoDup (issued t) /\
    (exists o, In (CreateProgram, o) t /\ o_ret o = Ruint 0).
Proof.
  destruct (run_creates (Z.to_nat 4294967297) (initial ∅)) as (t & w & E & Hlen & _ & Hall).
  exists t, w. split; [exact E |].
  destruct (run_inv _ _ _ _ (counter_ok_initial ∅) E) as (I1 & _ & _).
  rewrite Hlen in I1. change (fake_id (initial ∅)) with 1 in I1.
  assert (H0 : In 0 (issued t)).
  { rewrite I1. apply In_ids_from. exists (Z.to_nat 4294967295). split; [lia |].
    rewrite Z2Nat.id by lia. reflexivity. }
  split; [exact H0 | split].
  - intros Hnd. rewrite I1 in Hnd.
    assert (Ha : ids_from 1 (Z.to_nat 4294967297) !! 0%nat = Some 1).
    { rewrite lookup_ids_from by lia. reflexivity. }
    assert (Hb : ids_from 1 (Z.to_nat 4294967297) !! (Z.to_nat 4294967296) = Some 1).
    { rewrite lookup_ids_from by lia. rewrite Z2Nat.id by lia. reflexivity. }
    pose proof (NoDup_lookup _ _ _ _ Hnd Ha Hb). lia.
  - unfold issued in H0. apply in_concat in H0 as (l & Hl & H0).
    apply in_map_iff in Hl as ([c o] & <- & Hin). simpl in H0.
    pose proof (Hall _ _ Hin) as ->. exists o. split; [exact Hin |].
    destruct (run_transcript _ _ _ _ _ _ E Hin) as (w1 & w2 & (Ee & _ & Hids)%observe_Some).
    destruct (create_eq CreateProgram w1 eq_refl) as (w3 & Ee' & _).
    rewrite Ee' in Ee. injection Ee as Hr _.
    rewrite <- Hr in Hids. unfold ids_of in Hids. simpl in Hids.
    rewrite Hids in H0. destruct H0 as [<- | []]. by rewrite <- Hr.
Qed.

(** C1, amended: in every run from the initial state, over any mix of
    calls, as long as fewer than 2^32 identifiers have been issued they are
    1, 2, 3, ... in order of issue, hence pairwise distinct and nonzero; and
    every value returned by [glCreateShader] or [glCreateProgram] in such a
    run is nonzero. *)
Theorem C1_issued_distinct_nonzero m h t w :
  run h (initial m) = Some (t, w) ->
  Z.of_nat (length (issued t)) < UINT_MOD ->
  issued t = map (fun j : nat => 1 + Z.of_nat j) (seq 0 (length (issued t))) /\
  NoDup (issued t) /\
  Forall (fun x => x <> 0) (issued t) /\
  (forall c o, In (c, o) t -> is_create c = true ->
               exists z, o_ret o = Ruint z /\ z <> 0).
Proof.
  intros E Hlen. destruct (run_initial _ _ _ _ E Hlen) as (I1 & _).
  assert (Hnz : Forall (fun x => x <> 0) (issued t)).
  { rewrite I1. apply List.Forall_forall. intros x (j & <- & _)%in_map_iff. lia. }
  split; [exact I1 | split; [| split; [exact Hnz |]]].
  - destruct (run_inv _ _ _ _ (counter_ok_initial m) E) as (J1 & _ & _).
    rewrite J1. apply NoDup_ids_from. lia.
  - intros c o Hin Hc.
    destruct (run_transcript _ _ _ _ _ _ E Hin) as (w1 & w2 & (Ee & _ & Hids)%observe_Some).
    destruct (create_eq c w1 Hc) as (w3 & Ee' & _).
    rewrite Ee' in Ee. injection Ee as Hr _.
    exists (fake_id w1). split; [done |].
    assert (Hz : In (fake_id w1) (issued t)).
    { unfold issued. apply in_concat. exists (o_ids o). split.
      - apply in_map_iff. by exists (c, o).
      - rewrite Hids, <- Hr. unfold ids_of. rewrite Hc.
        replace (is_generate c) with false by (by destruct c). by left. }
    rewrite List.Forall_forall in Hnz. by apply Hnz.
Qed.

Lemma C1_issued_distinct_nonzero_witness :
  exists t w,
    run demo_history (initial demo_heap) = Some (t, w) /\
    issued t = [1; 2; 3; 4; 5; 6; 7] /\
    NoDup (issued t) /\
    Forall (fun x => x <> 0) (issued t).
Proof.
  destruct (run demo_history (initial demo_heap)) as [[t w] |] eqn:E;
    [| vm_compute in E; discriminate].
  exists t, w. split; [reflexivity |].
  assert (Ht : issued t = [1; 2; 3; 4; 5; 6; 7]).
  { vm_compute in E. injection E as <- _. reflexivity. }
  assert (Hlen : Z.of_nat (length (issued t)) < UINT_MOD).
  { rewrite Ht. vm_compute. reflexivity. }
  destruct (C1_issued_distinct_nonzero demo_heap demo_history t w E Hlen) as (_ & Hnd & Hnz & _).
  by repeat split.
Defined.

(** ** C2 *)

Lemma three_cells_valid j : 0 <= j < 3 -> is_Some (three_cells !! index 100 j).
Proof.
  intros Hj. assert (j = 0 \/ j = 1 \/ j = 2) as [-> | [-> | ->]] by lia; by eexists.
Qed.

(** C2, refuted as stated: after 4294967294 calls of [glCreateProgram] the
    counter is k = 4294967295; [glGenTextures(3, out)] then stores
    4294967295, 0, 1 rather than k, k+1, k+2, leaves the counter at 2 rather
    than k+3, and the identifier 1 had been issued before in the same run. *)
Lemma C2_counterexample :
  exists t w w',
    run (repeat (Call CreateProgram) (Z.to_nat 4294967294)) (initial three_cells) = Some (t, w) /\
    fake_id w = 4294967295 /\
    (forall j, 0 <= j < 3 -> is_Some (heap w !! index 100 j)) /\
    glGenTextures 3 100 w = Some (tt, w') /\
    drop (length (writes w)) (writes w') = [(100, 4294967295); (104, 0); (108, 1)] /\
    fake_id w' = 2 /\
    In 1 (issued t).
Proof.
  destruct (run_creates (Z.to_nat 4294967294) (initial three_cells))
    as (t & w & E & Hlen & Hheap & _).
  destruct (run_inv _ _ _ _ (counter_ok_initial three_cells) E) as (I1 & I2 & Hk).
  rewrite Hlen in I1, I2. change (fake_id (initial three_cells)) with 1 in I1, I2.
  assert (Hid : fake_id w = 4294967295).
  { rewrite I2, Z2Nat.id by lia. reflexivity. }
  assert (Hv : forall j, 0 <= j < 3 -> is_Some (heap w !! index 100 j)).
  { rewrite Hheap. exact three_cells_valid. }
  destruct (generate_total (GenTextures 3 100) 3 100 w) as [[r w'] Ee];
    [left; reflexivity | exact Hv |].
  destruct (generate_inv (GenTextures 3 100) 3 100 w r w') as (-> & E1 & E2 & _);
    [left; reflexivity | exact Hk | exact Ee |].
  apply void_Some in Ee as [_ Ee].
  exists t, w, w'.
  split; [exact E |]. split; [exact Hid |]. split; [exact Hv |].
  split; [exact Ee |]. split; [| split].
  - rewrite E2, drop_writes_app, Hid. reflexivity.
  - rewrite E1, Hid. reflexivity.
  - rewrite I1. apply In_ids_from. exists 0%nat. split; [lia | reflexivity].
Qed.

(** C2, amended: in a run from the initial state, a generate call with count
    n >= 0 on an array of the caller, made when the identifiers issued so far
    plus n number fewer than 2^32 - 1, stores the n consecutive identifiers
    k, k+1, ..., k+n-1 into out[0..n-1] (k the counter's value at the call),
    stores nothing else, leaves the counter at k+n, and none of these
    identifiers was issued earlier in the run. *)
Theorem C2_generate_consecutive m h t w c n out :
  run h (initial m) = Some (t, w) ->
  In c (generate_calls n out) ->
  0 <= n ->
  (forall j, 0 <= j < n -> is_Some (heap w !! index out j)) ->
  Z.of_nat (length (issued t)) + n < UINT_MOD - 1 ->
  exists w',
    exec c w = Some (Rvoid, w') /\
    drop (length (writes w)) (writes w')
      = map (fun j => (index out j, fake_id w + j)) (seqZ 0 n) /\
    (forall j, 0 <= j < n -> heap w' !! index out j = Some (fake_id w + j)) /\
    fake_id w' = fake_id w + n /\
    (forall j, 0 <= j < n -> ~ In (fake_id w + j) (issued t)).
Proof.
  intros E Hc Hn Hv Hlen.
  destruct (run_initial _ _ _ _ E ltac:(lia)) as (I1 & I2).
  rewrite wrap_uint_small in I2 by lia.
  assert (Hk : counter_ok w) by (unfold counter_ok; lia).
  destruct (generate_total c n out w Hc Hv) as [[r w'] Ee].
  destruct (generate_inv c n out w r w' Hc Hk Ee) as (-> & E1 & E2 & E3).
  exists w'. split; [exact Ee |]. repeat split.
  - rewrite E2, drop_writes_app. apply gen_stores_seqZ; lia.
  - intros j Hj. rewrite E3.
    pose proof (apply_gen_stores_lookup out 0 (fake_id w) (Z.to_nat n) (heap w)
                  (Z.to_nat j) ltac:(lia)) as Hl.
    rewrite Z.add_0_l, Z2Nat.id in Hl by lia.
    rewrite Hl. f_equal. apply wrap_uint_small. lia.
  - rewrite E1. rewrite Z2Nat.id by lia. apply wrap_uint_small. lia.
  - intros j Hj Hin. rewrite I1 in Hin.
    apply in_map_iff in Hin as (j' & Ej & Hj'%in_seq). lia.
Qed.

Lemma C2_generate_consecutive_witness :
  exists w',
    exec (GenTextures 3 100) (initial demo_heap) = Some (Rvoid, w') /\
    drop 0 (writes w') = [(100, 1); (104, 2); (108, 3)] /\
    (forall j, 0 <= j < 3 -> heap w' !! index 100 j = Some (1 + j)) /\
    fake_id w' = 4 /\
    (forall j, 0 <= j < 3 -> ~ In (1 + j) []).
Proof.
  apply (C2_generate_consecutive demo_heap [] [] (initial demo_heap) (GenTextures 3 100) 3 100).
  - reflexivity.
  - simpl. tauto.
  - lia.
  - intros j Hj. assert (j = 0 \/ j = 1 \/ j = 2) as [-> | [-> | ->]] by lia; by eexists.
  - vm_compute. reflexivity.
Defined.

(** ** C3 *)

(** C3: after any history of calls, [glGetShaderiv] asked for the compile
    status (0x8B81) and [glGetProgramiv] asked for the link status (0x8B82)
    store 1 through a non-null [params] that points at the caller's memory,
    and store nothing else; no earlier [glShaderSource], [glCompileShader] or
    [glLinkProgram] is needed. *)
Theorem C3_status_queries_report_success h w0 t w shader program params :
  run h w0 = Some (t, w) ->
  params <> NULL ->
  is_Some (heap w !! params) ->
  (exists w1, glGetShaderiv shader 0x8B81 params w = Some (tt, w1) /\
              heap w1 = <[params := 1]> (heap w) /\
              writes w1 = writes w ++ [(params, 1)] /\
              fake_id w1 = fake_id w) /\
  (exists w2, glGetProgramiv program 0x8B82 params w = Some (tt, w2) /\
              heap w2 = <[params := 1]> (heap w) /\
              writes w2 = writes w ++ [(params, 1)] /\
              fake_id w2 = fake_id w).
Proof.
  intros _ Hnn Hv. split.
  - destruct (pointer_query_total (GetShaderiv shader 0x8B81 params) w eq_refl)
      as [[r w1] E]; [by right |].
    destruct (pointer_query_inv (GetShaderiv shader 0x8B81 params) _ _ _ eq_refl E)
      as (-> & F & [[Hn _] | (_ & _ & Hh & Hw)]); [done |].
    apply void_Some in E as [_ E]. by exists w1.
  - destruct (pointer_query_total (GetProgramiv program 0x8B82 params) w eq_refl)
      as [[r w2] E]; [by right |].
    destruct (pointer_query_inv (GetProgramiv program 0x8B82 params) _ _ _ eq_refl E)
      as (-> & F & [[Hn _] | (_ & _ & Hh & Hw)]); [done |].
    apply void_Some in E as [_ E]. by exists w2.
Qed.

(** A shader is created and its status queried, with no compile in between. *)
Lemma C3_status_queries_report_success_witness :
  exists t w,
    run [Call (CreateShader 35633)] (initial demo_heap) = Some (t, w) /\
    (exists w1, glGetShaderiv 1 0x8B81 200 w = Some (tt, w1) /\
                heap w1 !! 200 = Some 1) /\
    (exists w2, glGetProgramiv 1 0x8B82 200 w = Some (tt, w2) /\
                heap w2 !! 200 = Some 1).
Proof.
  destruct (run [Call (CreateShader 35633)] (initial demo_heap)) as [[t w] |] eqn:E;
    [| vm_compute in E; discriminate].
  exists t, w. split; [reflexivity |].
  assert (Hh : heap w = demo_heap).
  { vm_compute in E. injection E as _ <-. reflexivity. }
  assert (Hv : is_Some (heap w !! 200)) by (rewrite Hh; by eexists).
  destruct (C3_status_queries_report_success _ _ _ _ 1 1 200 E ltac:(done) Hv)
    as [(w1 & E1 & H1 & _) (w2 & E2 & H2 & _)].
  split; [exists w1 | exists w2]; (split; [done |]).
  - rewrite H1. apply lookup_insert_eq.
  - rewrite H2. apply lookup_insert_eq.
Defined.

(** ** C4 *)

(** C4: [glGetError] returns 0 in every world and changes nothing; hence
    every [glGetError] call of every history returned 0, and so does one
    made when the history is over. *)
Theorem C4_glGetError_no_error h w0 t w :
  run h w0 = Some (t, w) ->
  (forall o, In (GetError, o) t -> o_ret o = Rint 0 /\ o_stored o = [] /\ o_ids o = []) /\
  glGetError w = Some (0, w).
Proof.
  intros E. split; [| reflexivity].
  intros o Hin.
  destruct (run_transcript _ _ _ _ _ _ E Hin) as (w1 & w2 & (Ee & Hst & Hids)%observe_Some).
  injection Ee as Hr <-. rewrite drop_writes_same in Hst.
  rewrite Hids, Hst, <- Hr. done.
Qed.

Lemma C4_glGetError_no_error_witness :
  exists t w,
    run [Call GetError; Call (CreateShader 0); Call GetError; Call GetError]
        (initial ∅) = Some (t, w) /\
    (forall o, In (GetError, o) t -> o_ret o = Rint 0 /\ o_stored o = [] /\ o_ids o = []) /\
    glGetError w = Some (0, w).
Proof.
  destruct (run [Call GetError; Call (CreateShader 0); Call GetError; Call GetError]
                (initial ∅)) as [[t w] |] eqn:E;
    [| vm_compute in E; discriminate].
  exists t, w. split; [reflexivity |].
  exact (C4_glGetError_no_error _ _ _ _ E).
Defined.

(** ** C5 *)

(** C5: for every target and in every world, [glCheckFramebufferStatus]
    returns 0x8CD5, the value of GL_FRAMEBUFFER_COMPLETE in the OpenGL
    headers, and touches neither the counter nor the caller's memory. *)
Theorem C5_glCheckFramebufferStatus_complete target w :
  exists w', glCheckFramebufferStatus target w = Some (0x8CD5, w') /\ frame w w'.
Proof. unfold glCheckFramebufferStatus. apply LOG_ret_frame. Qed.

(** ** C6 *)

Open Scope string_scope.
Open Scope Z_scope.

(** C6: [glGetString] never faults and returns "GL Nullify" for 0x1F00,
    "Null Renderer" for 0x1F01, "4.5" for 0x1F02, the empty extension list
    for 0x1F03, and the empty string for every other name. *)
Theorem C6_glGetString_fixed_strings name w :
  exists s w',
    glGetString name w = Some (s, w') /\
    frame w w' /\
    (name = 0x1F00 -> s = "GL Nullify") /\
    (name = 0x1F01 -> s = "Null Renderer") /\
    (name = 0x1F02 -> s = "4.5") /\
    (name = 0x1F03 -> s = "") /\
    (name <> 0x1F00 -> name <> 0x1F01 -> name <> 0x1F02 -> name <> 0x1F03 -> s = "").
Proof.
  unfold glGetString.
  destruct (Z.eqb_spec name 0x1F00) as [-> | H0].
  { destruct (LOG_ret_frame "glGetString(name=0x%x)" [Aint 0x1F00] "GL Nullify" w)
      as (w' & E & F). exists "GL Nullify", w'.
    split; [exact E |]. split; [exact F |]. repeat split; intros; (done || lia). }
  destruct (Z.eqb_spec name 0x1F01) as [-> | H1].
  { destruct (LOG_ret_frame "glGetString(name=0x%x)" [Aint 0x1F01] "Null Renderer" w)
      as (w' & E & F). exists "Null Renderer", w'.
    split; [exact E |]. split; [exact F |]. repeat split; intros; (done || lia). }
  destruct (Z.eqb_spec name 0x1F02) as [-> | H2].
  { destruct (LOG_ret_frame "glGetString(name=0x%x)" [Aint 0x1F02] "4.5" w)
      as (w' & E & F). exists "4.5", w'.
    split; [exact E |]. split; [exact F |]. repeat split; intros; (done || lia). }
  destruct (LOG_ret_frame "glGetString(name=0x%x)" [Aint name] "" w) as (w' & E & F).
  exists "", w'. split; [by destruct (name =? 0x1F03) |].
  split; [exact F |]. repeat split; intros; (done || lia).
Qed.

Lemma C6_glGetString_fixed_strings_witness :
  (exists w', glGetString 0x1F00 (initial ∅) = Some ("GL Nullify", w')) /\
  (exists w', glGetString 0x1F01 (initial ∅) = Some ("Null Renderer", w')) /\
  (exists w', glGetString 0x1F02 (initial ∅) = Some ("4.5", w')) /\
  (exists w', glGetString 0x1F03 (initial ∅) = Some ("", w')) /\
  (exists w', glGetString 0x0B71 (initial ∅) = Some ("", w')).
Proof.
  repeat split.
  - destruct (C6_glGetString_fixed_strings 0x1F00 (initial ∅)) as (s & w' & E & _ & H & _).
    exists w'. by rewrite E, H.
  - destruct (C6_glGetString_fixed_strings 0x1F01 (initial ∅)) as (s & w' & E & _ & _ & H & _).
    exists w'. by rewrite E, H.
  - destruct (C6_glGetString_fixed_strings 0x1F02 (initial ∅)) as (s & w' & E & _ & _ & _ & H & _).
    exists w'. by rewrite E, H.
  - destruct (C6_glGetString_fixed_strings 0x1F03 (initial ∅))
      as (s & w' & E & _ & _ & _ & _ & H & _).
    exists w'. by rewrite E, H.
  - destruct (C6_glGetString_fixed_strings 0x0B71 (initial ∅))
      as (s & w' & E & _ & _ & _ & _ & _ & H).
    exists w'. by rewrite E, H.
Defined.

Close Scope string_scope.

(** ** C7 *)

(** C7: for every parameter name, [glGetIntegerv] with a non-null [params]
    that points at the caller's memory stores 1 there and nothing else, and
    with a null [params] it returns without a fault and without a store,
    whatever the caller's memory is. *)
Theorem C7_glGetIntegerv_default pname params w :
  params = NULL \/ is_Some (heap w !! params) ->
  exists w',
    glGetIntegerv pname params w = Some (tt, w') /\
    fake_id w' = fake_id w /\
    (params <> NULL ->
     heap w' = <[params := 1]> (heap w) /\ writes w' = writes w ++ [(params, 1)]) /\
    (params = NULL -> heap w' = heap w /\ writes w' = writes w).
Proof.
  intros Hp.
  destruct (pointer_query_total (GetIntegerv pname params) w eq_refl Hp) as [[r w'] E].
  destruct (pointer_query_inv (GetIntegerv pname params) _ _ _ eq_refl E)
    as (-> & F & Hcases).
  apply void_Some in E as [_ E]. exists w'. split; [exact E |]. split; [exact F |].
  simpl in Hcases. destruct Hcases as [(Hn & Hh & Hw) | (Hn & _ & Hh & Hw)]; split; intros; done.
Qed.

Lemma C7_glGetIntegerv_default_witness :
  (exists w', glGetIntegerv 0x0D33 200 (initial demo_heap) = Some (tt, w') /\
              heap w' = <[200 := 1]> demo_heap /\ writes w' = [(200, 1)]) /\
  (exists w', glGetIntegerv 0x0D33 NULL (initial ∅) = Some (tt, w') /\
              heap w' = ∅ /\ writes w' = []).
Proof.
  split.
  - destruct (C7_glGetIntegerv_default 0x0D33 200 (initial demo_heap))
      as (w' & E & _ & H & _); [right; by eexists |].
    exists w'. split; [exact E |]. by apply H.
  - destruct (C7_glGetIntegerv_default 0x0D33 NULL (initial ∅))
      as (w' & E & _ & _ & H); [by left |].
    exists w'. split; [exact E |]. by apply H.
Defined.

(** ** C8 *)

(** C8: any sequence of delete calls, with any arguments (identifiers that
    were issued or not, repeated or not), runs to its end without a fault from
    any world; every call returns void, stores nothing, and the counter and
    the caller's memory are as before. *)
Theorem C8_delete_calls_inert cs w :
  Forall (fun c => is_delete c = true) cs ->
  exists t w',
    run (map Call cs) w = Some (t, w') /\
    frame w w' /\
    map fst t = cs /\
    (forall c o, In (c, o) t -> o_ret o = Rvoid /\ o_stored o = [] /\ o_ids o = []).
Proof.
  revert w. induction cs as [| c cs IH]; intros w Hd.
  - exists [], w. repeat split; done.
  - apply Forall_cons in Hd as [Hc Hd].
    assert (Ec : exists w1, exec c w = Some (Rvoid, w1) /\ frame w w1).
    { destruct c; try discriminate; unfold_entry; apply void_LOG_frame. }
    destruct Ec as (w1 & Ec & F1).
    destruct (IH w1 Hd) as (t & w' & Er & F & Hfst & Hall).
    assert (Est : drop (length (writes w)) (writes w1) = []).
    { destruct F1 as (_ & _ & ->). apply drop_writes_same. }
    set (o := Outcome Rvoid [] (ids_of c Rvoid [])).
    exists ((c, o) :: t), w'. split; [| split; [| split]].
    + apply run_cons_Call. exists o, w1, t. split; [| done].
      unfold observe. rewrite Ec. simpl. by rewrite Est.
    + by eapply frame_trans.
    + simpl. by rewrite Hfst.
    + intros c' o' [[= <- <-] | Hin]; [| by eapply Hall].
      subst o. simpl. repeat split. by destruct c.
Qed.

Lemma C8_delete_calls_inert_witness :
  exists t w',
    run (map Call [DeleteTextures 3 100; DeleteShader 4; DeleteShader 4; DeleteProgram 99;
                   DeleteBuffers 1 NULL; DeleteVertexArrays (-1) 8; DeleteFramebuffers 2 200])
        (World 5 demo_heap [] []) = Some (t, w') /\
    fake_id w' = 5 /\ heap w' = demo_heap /\ writes w' = [].
Proof.
  destruct (C8_delete_calls_inert
              [DeleteTextures 3 100; DeleteShader 4; DeleteShader 4; DeleteProgram 99;
               DeleteBuffers 1 NULL; DeleteVertexArrays (-1) 8; DeleteFramebuffers 2 200]
              (World 5 demo_heap [] []))
    as (t & w' & E & F & _).
  - repeat constructor.
  - exists t, w'. split; [exact E | exact F].
Defined.

(** ** C9 *)

(** C9, refuted as stated: [glGetIntegerv] is not one of the six allocating
    functions, yet with a non-null [params] it writes through it: the cell at
    address 200 held 7 and holds 1 afterwards. *)
Lemma C9_counterexample :
  exists w',
    is_allocating (GetIntegerv 0x0D33 200) = false /\
    exec (GetIntegerv 0x0D33 200) (initial {[ 200 := 7 ]}) = Some (Rvoid, w') /\
    heap (initial {[ 200 := 7 ]}) !! 200 = Some 7 /\
    heap w' !! 200 = Some 1 /\
    writes (initial {[ 200 := 7 ]}) = [] /\
    writes w' = [(200, 1)].
Proof. eexists. repeat split; vm_compute; reflexivity. Qed.

(** C9, amended: a call of any function other than the six allocating ones
    leaves the counter unchanged.  Unless it is one of the three queries with
    an output pointer ([glGetIntegerv], [glGetShaderiv], [glGetProgramiv]) it
    also cannot fault and performs no store.  Each of those three returns
    without a store when [params] is null, and when [params] is non-null and
    points at memory of the caller it returns after exactly one store, of its
    answer to the cell [params] points at; and whenever one of them returns,
    it has performed no store if [params] is null and exactly that one store
    if it is not. *)
Theorem C9_only_allocators_move_counter c w :
  is_allocating c = false ->
  (is_pointer_query c = false ->
   exists r w', exec c w = Some (r, w') /\ frame w w') /\
  (is_pointer_query c = true -> params_of c = NULL ->
   exists w', exec c w = Some (Rvoid, w') /\ frame w w') /\
  (is_pointer_query c = true -> params_of c <> NULL ->
   is_Some (heap w !! params_of c) ->
   exists w', exec c w = Some (Rvoid, w') /\
              fake_id w' = fake_id w /\
              heap w' = <[params_of c := answer_of c]> (heap w) /\
              writes w' = writes w ++ [(params_of c, answer_of c)]) /\
  (forall r w', exec c w = Some (r, w') ->
     fake_id w' = fake_id w /\
     (((is_pointer_query c = false \/ params_of c = NULL) /\
       heap w' = heap w /\ writes w' = writes w) \/
      (is_pointer_query c = true /\ params_of c <> NULL /\
       heap w' = <[params_of c := answer_of c]> (heap w) /\
       writes w' = writes w ++ [(params_of c, answer_of c)]))).
Proof.
  intros Ha. split; [| split; [| split]].
  - intros Hq. by apply exec_frame.
  - intros Hq Hn.
    destruct (pointer_query_total c w Hq (or_introl Hn)) as [[r w'] E].
    destruct (pointer_query_inv c w r w' Hq E)
      as (-> & F & [(_ & Hh & Hw) | (Hnn & _)]); [| done].
    exists w'. split; [exact E |]. by repeat split.
  - intros Hq Hnn Hv.
    destruct (pointer_query_total c w Hq (or_intror Hv)) as [[r w'] E].
    destruct (pointer_query_inv c w r w' Hq E)
      as (-> & F & [(Hn & _) | (_ & _ & Hh & Hw)]); [done |].
    exists w'. split; [exact E |]. by repeat split.
  - intros r w' E. destruct (is_pointer_query c) eqn:Hq.
    + destruct (pointer_query_inv c w r w' Hq E)
        as (_ & F & [(Hn & Hh & Hw) | (Hnn & _ & Hh & Hw)]).
      * split; [exact F |]. left. split; [by right | by split].
      * split; [exact F |]. by right.
    + destruct (exec_frame c w Ha Hq) as (r1 & w1 & E1 & F1 & F2 & F3).
      rewrite E1 in E. injection E as _ <-. split; [exact F1 |].
      left. split; [by left | by split].
Qed.

Lemma C9_only_allocators_move_counter_witness :
  (exists r w', exec (DrawArrays 4 0 3) (World 9 demo_heap [] []) = Some (r, w') /\
                frame (World 9 demo_heap [] []) w') /\
  (exists w', exec (GetProgramiv 1 0x8B82 NULL) (World 9 demo_heap [] []) = Some (Rvoid, w') /\
              frame (World 9 demo_heap [] []) w') /\
  (exists w', exec (GetShaderiv 1 0x8B81 200) (World 9 demo_heap [] []) = Some (Rvoid, w') /\
              fake_id w' = 9 /\
              heap w' = <[200 := 1]> demo_heap /\
              writes w' = [(200, 1)]).
Proof.
  split; [| split].
  - apply (C9_only_allocators_move_counter (DrawArrays 4 0 3) (World 9 demo_heap [] []));
      reflexivity.
  - apply (C9_only_allocators_move_counter (GetProgramiv 1 0x8B82 NULL)
             (World 9 demo_heap [] [])); reflexivity.
  - apply (C9_only_allocators_move_counter (GetShaderiv 1 0x8B81 200)
             (World 9 demo_heap [] [])); [reflexivity | reflexivity | discriminate |].
    eexists. reflexivity.
Defined.

(** ** C10 *)

Lemma gen_body_nonpositive fmt n out w :
  n <= 0 ->
  exists w', (LOG fmt [Aint n] ;;; gen_loop (Z.to_nat n) n out 0) w = Some (tt, w') /\
             frame w w'.
Proof.
  intros Hn.
  destruct (bind_LOG fmt [Aint n] (gen_loop (Z.to_nat n) n out 0) w) as (w0 & F & ->).
  exists w0. split; [| done].
  replace (Z.to_nat n) with 0%nat by lia. reflexivity.
Qed.

(** C10: a generate call with count n <= 0 returns without a fault whatever
    the output pointer and the caller's memory are (a null pointer
    included), performs no store, and leaves the counter and the memory as
    they were. *)
Theorem C10_generate_nonpositive c n out w :
  In c (generate_calls n out) ->
  n <= 0 ->
  exists w',
    exec c w = Some (Rvoid, w') /\
    fake_id w' = fake_id w /\ heap w' = heap w /\ writes w' = writes w.
Proof.
  intros Hc Hn. simpl in Hc.
  destruct Hc as [<- | [<- | [<- | [<- | []]]]]; simpl;
    unfold glGenTextures, glGenBuffers, glGenVertexArrays, glGenFramebuffers;
    match goal with
    | |- context [LOG ?fmt _] =>
        destruct (gen_body_nonpositive fmt n out w Hn) as (w' & E & F)
    end;
    exists w'; (split; [by apply void_Some | exact F]).
Qed.

Lemma C10_generate_nonpositive_witness :
  exists w',
    exec (GenVertexArrays (-2) NULL) (initial ∅) = Some (Rvoid, w') /\
    fake_id w' = 1 /\ heap w' = ∅ /\ writes w' = [].
Proof.
  apply (C10_generate_nonpositive (GenVertexArrays (-2) NULL) (-2) NULL (initial ∅)).
  - simpl. tauto.
  - lia.
Defined.

(** * Further properties of the library *)

(** ** When a call faults *)

(** X1: the library faults only through a store to a location the caller
    supplied.  A generate call returns whenever every cell out[0..n-1] is
    memory of the caller, a query with an output pointer returns whenever
    [params] is null or memory of the caller, and every other call returns
    whatever its arguments (pointers included) and the memory are; hence a
    whole run returns when each of its calls is given such pointers in the
    world it is made in. *)
Theorem X1_faults_only_on_bad_output_pointer c w :
  (forall n out, In c (generate_calls n out) ->
     (forall j, 0 <= j < n -> is_Some (heap w !! index out j)) -> is_Some (exec c w)) /\
  (is_pointer_query c = true ->
     params_of c = NULL \/ is_Some (heap w !! params_of c) -> is_Some (exec c w)) /\
  (is_generate c = false -> is_pointer_query c = false -> is_Some (exec c w)) /\
  (forall h, safe_run h w -> is_Some (run h w)).
Proof.
  split; [| split; [| split]].
  - intros n out Hin. by apply generate_total.
  - intros Hq Hp. by apply pointer_query_total.
  - intros Hg Hq. apply exec_total. by destruct c.
  - intros h. apply run_total.
Qed.

Lemma X1_faults_only_on_bad_output_pointer_witness :
  is_Some (exec (GenBuffers 2 200) (initial demo_heap)) /\
  is_Some (exec (GetProgramiv 1 0x8B82 200) (initial demo_heap)) /\
  is_Some (exec (BufferData 0x8892 64 NULL 0x88E4) (initial ∅)) /\
  is_Some (run [Call (TexImage2D 0x0DE1 0 0x1908 4 4 0 0x1908 0x1401 12345);
                Call (GetIntegerv 0x0D33 NULL)] (initial ∅)).
Proof.
  pose proof (X1_faults_only_on_bad_output_pointer (GenBuffers 2 200) (initial demo_heap))
    as (G2 & _ & _ & _).
  pose proof (X1_faults_only_on_bad_output_pointer (GetProgramiv 1 0x8B82 200)
                (initial demo_heap)) as (_ & Q & _ & _).
  pose proof (X1_faults_only_on_bad_output_pointer (BufferData 0x8892 64 NULL 0x88E4)
                (initial ∅)) as (_ & _ & N & R).
  split; [| split; [| split]].
  - apply (G2 2 200); [simpl; tauto |].
    intros j Hj. assert (j = 0 \/ j = 1) as [-> | ->] by lia; eexists; reflexivity.
  - apply Q; [reflexivity |]. right. eexists. reflexivity.
  - apply N; reflexivity.
  - apply R. simpl. split; [exact I |]. intros o w' _. split; [by left |]. intros; exact I.
Defined.

(** X2: the generate functions do not guard their output pointer the way
    the queries do: called with a null [out] and a count of at least one, in a
    process where address 0 is not mapped, a generate call faults on its first
    store. *)
Theorem X2_generate_does_not_guard_pointer c n w :
  In c (generate_calls n NULL) ->
  1 <= n ->
  heap w !! NULL = None ->
  exec c w = None.
Proof.
  intros Hin Hn Hnone.
  destruct (exec c w) as [[r w'] |] eqn:E; [| reflexivity].
  assert (Hs : is_Some (exec c w)) by (rewrite E; eexists; reflexivity).
  destruct (generate_valid c n NULL w Hin Hs 0 ltac:(lia)) as [x Hx].
  unfold index, SIZEOF_INT in Hx. rewrite Z.mul_0_r, Z.add_0_r in Hx. congruence.
Qed.

Lemma X2_generate_does_not_guard_pointer_witness :
  exec (GenTextures 1 NULL) (initial demo_heap) = None.
Proof.
  apply (X2_generate_does_not_guard_pointer (GenTextures 1 NULL) 1 (initial demo_heap)).
  - simpl. tauto.
  - lia.
  - reflexivity.
Defined.

(** ** The generate and create functions at any counter value *)

(** X3: whatever the counter's value k, a generate call with count n >= 0
    on an array of the caller stores (k + j) mod 2^32 into out[j] for each
    j < n, in that order and nothing else, leaves every cell outside the
    array as it was, and leaves the counter at (k + n) mod 2^32. *)
Theorem X3_generate_wraps c n out w :
  In c (generate_calls n out) ->
  counter_ok w ->
  0 <= n ->
  (forall j, 0 <= j < n -> is_Some (heap w !! index out j)) ->
  exists w',
    exec c w = Some (Rvoid, w') /\
    drop (length (writes w)) (writes w')
      = map (fun j => (index out j, wrap_uint (fake_id w + j))) (seqZ 0 n) /\
    (forall j, 0 <= j < n -> heap w' !! index out j = Some (wrap_uint (fake_id w + j))) /\
    (forall a, (forall j, 0 <= j < n -> a <> index out j) -> heap w' !! a = heap w !! a) /\
    fake_id w' = wrap_uint (fake_id w + n).
Proof.
  intros Hin Hk Hn Hv.
  destruct (generate_total c n out w Hin Hv) as [[r w'] E].
  destruct (generate_inv c n out w r w' Hin Hk E) as (-> & E1 & E2 & E3).
  exists w'. split; [exact E |]. split; [| split; [| split]].
  - rewrite E2, drop_writes_app. unfold gen_stores, seqZ.
    change (?f <$> ?l) with (map f l). rewrite map_map.
    apply map_ext. intros j. f_equal; f_equal; lia.
  - intros j Hj. rewrite E3.
    pose proof (apply_gen_stores_lookup out 0 (fake_id w) (Z.to_nat n) (heap w)
                  (Z.to_nat j) ltac:(lia)) as Hl.
    rewrite Z.add_0_l, Z2Nat.id in Hl by lia. exact Hl.
  - intros a Ha. rewrite E3. apply apply_gen_stores_other.
    intros j Hj. rewrite Z.add_0_l. apply Ha. lia.
  - rewrite E1. by rewrite Z2Nat.id.
Qed.

Lemma X3_generate_wraps_witness :
  exists w',
    exec (GenFramebuffers 3 100) (World 4294967295 demo_heap [] []) = Some (Rvoid, w') /\
    heap w' !! 100 = Some 4294967295 /\
    heap w' !! 104 = Some 0 /\
    heap w' !! 108 = Some 1 /\
    heap w' !! 200 = Some 7 /\
    fake_id w' = 2.
Proof.
  destruct (X3_generate_wraps (GenFramebuffers 3 100) 3 100 (World 4294967295 demo_heap [] []))
    as (w' & E & _ & Hin & Hout & Hid).
  - simpl. tauto.
  - unfold counter_ok, UINT_MOD. simpl. lia.
  - lia.
  - intros j Hj. assert (j = 0 \/ j = 1 \/ j = 2) as [-> | [-> | ->]] by lia; by eexists.
  - exists w'. split; [exact E |]. repeat split.
    + exact (Hin 0 ltac:(lia)).
    + exact (Hin 1 ltac:(lia)).
    + exact (Hin 2 ltac:(lia)).
    + rewrite (Hout 200); [reflexivity |]. intros j Hj. unfold index, SIZEOF_INT. lia.
    + exact Hid.
Defined.

(** X4: [glCreateShader] and [glCreateProgram] cannot fault; whatever the
    shader type passed, the call returns the counter's current value k (so it
    returns 0 exactly when the counter is 0), stores nothing, leaves the
    counter at (k + 1) mod 2^32, and prints one diagnostic whose last argument
    is the very value it returns. *)
Theorem X4_create_returns_counter c w :
  is_create c = true ->
  exists w' fmt args,
    exec c w = Some (Ruint (fake_id w), w') /\
    fake_id w' = wrap_uint (fake_id w + 1) /\
    heap w' = heap w /\
    writes w' = writes w /\
    stderr w' = stderr w ++ [(fmt, args)] /\
    last args = Some (Auint (fake_id w)).
Proof.
  destruct c; try discriminate; intros _.
  - eexists _, _, _. repeat split.
  - eexists _, _, _. repeat split.
Qed.

Lemma X4_create_returns_counter_witness :
  exists w' fmt args,
    exec (CreateShader 0) (World 0 ∅ [] []) = Some (Ruint 0, w') /\
    fake_id w' = 1 /\
    stderr w' = [(fmt, args)] /\
    last args = Some (Auint 0).
Proof.
  destruct (X4_create_returns_counter (CreateShader 0) (World 0 ∅ [] []) eq_refl)
    as (w' & fmt & args & E & Hid & _ & _ & Hlog & Hlast).
  exists w', fmt, args. by repeat split.
Defined.

(** ** The status queries on other parameters and on a null pointer *)

(** X5: the two status queries answer 1 to one parameter name each and 0 to
    every other one: [glGetShaderiv] stores 0 for every pname other than
    0x8B81, [glGetProgramiv] stores 0 for every pname other than 0x8B82 (so
    each answers 0 when asked for the other's status), through a non-null
    [params] that is memory of the caller; no other cell changes. *)
Theorem X5_status_queries_other_pname shader program pname params w :
  params <> NULL ->
  is_Some (heap w !! params) ->
  (pname <> 0x8B81 ->
   exists w1, glGetShaderiv shader pname params w = Some (tt, w1) /\
              heap w1 = <[params := 0]> (heap w) /\
              writes w1 = writes w ++ [(params, 0)] /\
              fake_id w1 = fake_id w) /\
  (pname <> 0x8B82 ->
   exists w2, glGetProgramiv program pname params w = Some (tt, w2) /\
              heap w2 = <[params := 0]> (heap w) /\
              writes w2 = writes w ++ [(params, 0)] /\
              fake_id w2 = fake_id w).
Proof.
  intros Hnn Hv. split; intros Hp.
  - destruct (pointer_query_total (GetShaderiv shader pname params) w eq_refl)
      as [[r w1] E]; [by right |].
    destruct (pointer_query_inv (GetShaderiv shader pname params) _ _ _ eq_refl E)
      as (-> & F & [[Hn _] | (_ & _ & Hh & Hw)]); [done |].
    apply void_Some in E as [_ E]. simpl in Hh, Hw.
    destruct (Z.eqb_spec pname 0x8B81) as [? | _]; [done |]. by exists w1.
  - destruct (pointer_query_total (GetProgramiv program pname params) w eq_refl)
      as [[r w2] E]; [by right |].
    destruct (pointer_query_inv (GetProgramiv program pname params) _ _ _ eq_refl E)
      as (-> & F & [[Hn _] | (_ & _ & Hh & Hw)]); [done |].
    apply void_Some in E as [_ E]. simpl in Hh, Hw.
    destruct (Z.eqb_spec pname 0x8B82) as [? | _]; [done |]. by exists w2.
Qed.

Lemma X5_status_queries_other_pname_witness :
  (exists w1, glGetShaderiv 1 0x8B82 200 (initial demo_heap) = Some (tt, w1) /\
              heap w1 !! 200 = Some 0) /\
  (exists w2, glGetProgramiv 2 0x8B81 200 (initial demo_heap) = Some (tt, w2) /\
              heap w2 !! 200 = Some 0).
Proof.
  assert (Hv : is_Some (heap (initial demo_heap) !! 200)) by (by eexists).
  split.
  - destruct (X5_status_queries_other_pname 1 2 0x8B82 200 (initial demo_heap)
                ltac:(done) Hv) as [H _].
    destruct (H ltac:(done)) as (w1 & E & Hh & _).
    exists w1. split; [exact E |]. rewrite Hh. apply lookup_insert_eq.
  - destruct (X5_status_queries_other_pname 1 2 0x8B81 200 (initial demo_heap)
                ltac:(done) Hv) as [_ H].
    destruct (H ltac:(done)) as (w2 & E & Hh & _).
    exists w2. split; [exact E |]. rewrite Hh. apply lookup_insert_eq.
Defined.

(** X6: like [glGetIntegerv], the two status queries tolerate a null
    [params]: for every shader or program, every pname and every memory of
    the caller they return without a fault and without a store. *)
Theorem X6_status_queries_null_params shader program pname w :
  (exists w1, glGetShaderiv shader pname NULL w = Some (tt, w1) /\ frame w w1) /\
  (exists w2, glGetProgramiv program pname NULL w = Some (tt, w2) /\ frame w w2).
Proof.
  split.
  - destruct (pointer_query_total (GetShaderiv shader pname NULL) w eq_refl)
      as [[r w1] E]; [by left |].
    destruct (pointer_query_inv (GetShaderiv shader pname NULL) _ _ _ eq_refl E)
      as (-> & F & [(_ & Hh & Hw) | (Hn & _)]); [| done].
    apply void_Some in E as [_ E]. by exists w1.
  - destruct (pointer_query_total (GetProgramiv program pname NULL) w eq_refl)
      as [[r w2] E]; [by left |].
    destruct (pointer_query_inv (GetProgramiv program pname NULL) _ _ _ eq_refl E)
      as (-> & F & [(_ & Hh & Hw) | (Hn & _)]); [| done].
    apply void_Some in E as [_ E]. by exists w2.
Qed.

(** ** Identifiers over a whole run *)

Lemma observe_demand c w o w' :
  counter_ok w ->
  observe c w = Some (o, w') ->
  length (o_ids o) = demand_of c.
Proof.
  intros Hk (E & Hst & Hids)%observe_Some.
  destruct (call_classes c) as [(Hg & Hc & Hq) | [(Hg & Hc & Hq) | [(Hg & Hc & Hq) | (Hg & Hc & Hq)]]];
    unfold ids_of in Hids; rewrite Hg, ?Hc in Hids.
  - destruct (is_generate_calls c Hg) as (n & out & Hin).
    destruct (generate_inv _ _ _ _ _ _ Hin Hk E) as (_ & _ & E2 & _).
    rewrite Hst, E2, drop_writes_app, gen_stores_ids in Hids.
    rewrite Hids, length_ids_from.
    simpl in Hin. by destruct Hin as [<- | [<- | [<- | [<- | []]]]].
  - destruct (create_eq c w Hc) as (w1 & E' & _).
    rewrite E' in E. injection E as Hr _. rewrite <- Hr in Hids.
    rewrite Hids. by destruct c.
  - rewrite Hids. by destruct c.
  - rewrite Hids. by destruct c.
Qed.

Lemma run_demand h w t w' :
  counter_ok w ->
  run h w = Some (t, w') ->
  length (issued t) = demand h.
Proof.
  revert w t. induction h as [| [c | m] h IH]; intros w t Hk E.
  - by injection E as <- <-.
  - apply run_cons_Call in E as (o & w1 & t' & Eo & Er & ->).
    destruct (observe_inv _ _ _ _ Hk Eo) as (_ & _ & Hk1).
    rewrite issued_cons, length_app. simpl.
    by rewrite (observe_demand _ _ _ _ Hk Eo), (IH _ _ Hk1 Er).
  - rewrite run_cons_Host in E. by apply IH in E.
Qed.

(** X7: all six allocating functions draw from the one counter, and nothing
    else moves it: in a run from counter k the identifiers issued are
    (k + j) mod 2^32 for j = 0, 1, ..., d - 1 in order of issue and the counter
    ends at (k + d) mod 2^32, where d adds up the counts of the generate calls
    (negative counts as 0) and one per create call.  Deletes, binds, queries
    and changes of the caller's memory in between have no influence. *)
Theorem X7_issued_follow_demand h w t w' :
  counter_ok w ->
  run h w = Some (t, w') ->
  issued t = map (fun j : nat => wrap_uint (fake_id w + Z.of_nat j)) (seq 0 (demand h)) /\
  fake_id w' = wrap_uint (fake_id w + Z.of_nat (demand h)).
Proof.
  intros Hk E.
  destruct (run_inv _ _ _ _ Hk E) as (I1 & I2 & _).
  rewrite (run_demand _ _ _ _ Hk E) in I1, I2. by split.
Qed.

Lemma X7_issued_follow_demand_witness :
  exists t w',
    run demo_history (initial demo_heap) = Some (t, w') /\
    issued t = [1; 2; 3; 4; 5; 6; 7] /\
    fake_id w' = 8.
Proof.
  destruct (run demo_history (initial demo_heap)) as [[t w'] |] eqn:E;
    [| vm_compute in E; discriminate].
  exists t, w'. split; [reflexivity |].
  exact (X7_issued_follow_demand demo_history (initial demo_heap) t w'
           (counter_ok_initial demo_heap) E).
Defined.

Lemma run_app h1 h2 w t w' :
  run (h1 ++ h2) w = Some (t, w') ->
  exists t1 w1 t2,
    run h1 w = Some (t1, w1) /\ run h2 w1 = Some (t2, w') /\ t = t1 ++ t2.
Proof.
  revert w t. induction h1 as [| [c | m] h1 IH]; intros w t E.
  - exists [], w, t. by repeat split.
  - change ((Call c :: h1) ++ h2) with (Call c :: (h1 ++ h2)) in E.
    apply run_cons_Call in E as (o & w0 & t' & Eo & Er & ->).
    destruct (IH _ _ Er) as (t1 & w1 & t2 & E1 & E2 & ->).
    exists ((c, o) :: t1), w1, t2. split; [| by split].
    apply run_cons_Call. by exists o, w0, t1.
  - change ((Host m :: h1) ++ h2) with (Host m :: (h1 ++ h2)) in E.
    rewrite run_cons_Host in E.
    destruct (IH _ _ E) as (t1 & w1 & t2 & E1 & E2 & ->).
    exists t1, w1, t2. by rewrite run_cons_Host.
Qed.

Lemma issued_app t1 t2 : issued (t1 ++ t2) = issued t1 ++ issued t2.
Proof. unfold issued. by rewrite map_app, concat_app. Qed.

(** X8: identifiers are not recycled.  In a run that starts at any counter
    value and asks for at most 2^32 identifiers in all, the identifiers issued
    are pairwise distinct, and none issued in a later part of the run equals
    one issued in an earlier part, whatever was called in between (a delete
    of that very identifier included). *)
Theorem X8_no_identifier_reuse h1 h2 w t w' :
  counter_ok w ->
  run (h1 ++ h2) w = Some (t, w') ->
  Z.of_nat (demand (h1 ++ h2)) <= UINT_MOD ->
  NoDup (issued t) /\
  exists t1 w1 t2,
    run h1 w = Some (t1, w1) /\ run h2 w1 = Some (t2, w') /\ t = t1 ++ t2 /\
    forall x, In x (issued t1) -> ~ In x (issued t2).
Proof.
  intros Hk E Hd.
  assert (Hnd : NoDup (issued t)).
  { destruct (run_inv _ _ _ _ Hk E) as (I1 & _ & _).
    rewrite I1. apply NoDup_ids_from. by rewrite (run_demand _ _ _ _ Hk E). }
  split; [exact Hnd |].
  destruct (run_app _ _ _ _ _ E) as (t1 & w1 & t2 & E1 & E2 & ->).
  exists t1, w1, t2. split; [exact E1 |]. split; [exact E2 |]. split; [reflexivity |].
  rewrite issued_app in Hnd. apply NoDup_app in Hnd as (_ & Hdis & _).
  intros x H1 H2. apply (Hdis x); by apply list_elem_of_In.
Qed.

Lemma X8_no_identifier_reuse_witness :
  exists t1 w1 t2 w',
    run [Call (CreateShader 35633); Call (DeleteShader 1)] (initial ∅) = Some (t1, w1) /\
    run [Call (CreateShader 35633); Call CreateProgram] w1 = Some (t2, w') /\
    issued t1 = [1] /\
    forall x, In x (issued t1) -> ~ In x (issued t2).
Proof.
  destruct (run ([Call (CreateShader 35633); Call (DeleteShader 1)] ++
                 [Call (CreateShader 35633); Call CreateProgram]) (initial ∅))
    as [[t w'] |] eqn:E; [| vm_compute in E; discriminate].
  destruct (X8_no_identifier_reuse _ _ _ _ _ (counter_ok_initial ∅) E)
    as (_ & t1 & w1 & t2 & E1 & E2 & _ & Hdis).
  { vm_compute. discriminate. }
  exists t1, w1, t2, w'. split; [exact E1 |]. split; [exact E2 |]. split; [| exact Hdis].
  vm_compute in E1. injection E1 as <- _. reflexivity.
Defined.

(** ** The diagnostic stream *)

Lemma bind_Some {A B} (m : M A) (k : A -> M B) w b w' :
  bind m k w = Some (b, w') <-> exists a w1, m w = Some (a, w1) /\ k a w1 = Some (b, w').
Proof.
  unfold bind. destruct (m w) as [[a w1] |].
  - split; [by eauto | by intros (? & ? & [= <- <-] & ?)].
  - split; [done | by intros (? & ? & ? & _)].
Qed.

Lemma LOG_stderr fmt args w u w' :
  LOG fmt args w = Some (u, w') -> stderr w' = stderr w ++ [log_record fmt args].
Proof. intros [= _ <-]. reflexivity. Qed.

Lemma bind_LOG_stderr {A} fmt args (k : M A) w a w' :
  quiet k ->
  (LOG fmt args ;;; k) w = Some (a, w') ->
  stderr w' = stderr w ++ [log_record fmt args].
Proof.
  intros Hq (u & w1 & E1 & E2)%bind_Some.
  apply Hq in E2. apply LOG_stderr in E1. by rewrite E2, E1.
Qed.

Lemma quiet_ret {A} (a : A) : quiet (ret a).
Proof. by intros w a' w' [= _ <-]. Qed.

Lemma quiet_store a v : quiet (store a v).
Proof. intros w u w' (_ & ->)%store_Some. reflexivity. Qed.

Lemma quiet_gen_loop fuel n out i : quiet (gen_loop fuel n out i).
Proof.
  revert i. induction fuel as [| fuel IH]; intros i w u w' E.
  - by injection E as _ <-.
  - simpl in E. destruct (i <? n); [| by injection E as _ <-].
    apply bind_Some in E as (k & w1 & [= <- <-] & E).
    apply bind_Some in E as (u1 & w2 & E1 & E2).
    apply quiet_store in E1. apply IH in E2. by rewrite E2, E1.
Qed.

Lemma quiet_guarded_store params v :
  quiet (if params =? NULL then ret tt else store params v).
Proof. destruct (params =? NULL); [apply quiet_ret | apply quiet_store]. Qed.

(** What one call prints. *)
Lemma exec_stderr c w r w' :
  exec c w = Some (r, w') ->
  if is_logged c
  then exists body args,
         stderr w' = stderr w ++ [log_record body args] /\
         String.prefix (symbol c) body = true
  else stderr w' = stderr w.
Proof.
  intros E. destruct c; simpl is_logged; simpl symbol; simpl in E;
    try (apply void_Some in E as [_ E]);
    try (apply bind_Some in E as (? & ? & E & [= _ <-]));
    lazymatch type of E with
    | glGetError _ = _ => by injection E as _ <-
    | glGetString _ _ = _ =>
        unfold glGetString in E; do 2 eexists; split;
        [ eapply bind_LOG_stderr; [| exact E];
          repeat (lazymatch goal with
                  | |- quiet (if ?b then _ else _) => destruct b
                  end);
          apply quiet_ret
        | reflexivity ]
    | glCreateShader _ _ = _ =>
        apply bind_Some in E as (k & w1 & [= <- <-] & E);
        do 2 eexists; split;
        [ eapply bind_LOG_stderr; [| exact E]; by intros ? ? ? [= _ <-] | reflexivity ]
    | glCreateProgram _ = _ =>
        apply bind_Some in E as (k & w1 & [= <- <-] & E);
        do 2 eexists; split;
        [ eapply bind_LOG_stderr; [| exact E]; by intros ? ? ? [= _ <-] | reflexivity ]
    | _ =>
        do 2 eexists; split;
        [ first [ eapply LOG_stderr; exact E
                | eapply bind_LOG_stderr; [| exact E];
                  first [ apply quiet_gen_loop
                        | apply quiet_ret
                        | apply quiet_guarded_store
                        | destruct (_ =? NULL); [apply quiet_ret |];
                          destruct (_ =? _); apply quiet_store ] ]
        | reflexivity ]
    end.
Qed.

(** X9: with logging compiled in ([DEBUG_LOG] is 1), every call that
    returns has printed exactly one diagnostic record, whose format is the
    tag "[gl_nullify] ", then a text that begins with the name of the function
    that was called, then a newline; except [glGetError], which prints
    nothing. *)
Theorem X9_one_diagnostic_per_call c w r w' :
  exec c w = Some (r, w') ->
  (is_logged c = true ->
   exists body args,
     stderr w' = stderr w ++ [(("[gl_nullify] " ++ body ++ newline)%string, args)] /\
     String.prefix (symbol c) body = true) /\
  (c = GetError -> stderr w' = stderr w).
Proof.
  intros E. pose proof (exec_stderr c w r w' E) as H. split.
  - intros Hl. by rewrite Hl in H.
  - intros ->. exact H.
Qed.

Lemma X9_one_diagnostic_per_call_witness :
  exists r w' body args,
    exec (ClearColor 0 0 0 1065353216) (initial ∅) = Some (r, w') /\
    stderr w' = [(("[gl_nullify] " ++ body ++ newline)%string, args)] /\
    String.prefix "glClearColor" body = true.
Proof.
  destruct (exec (ClearColor 0 0 0 1065353216) (initial ∅)) as [[r w'] |] eqn:E;
    [| vm_compute in E; discriminate].
  destruct (X9_one_diagnostic_per_call _ _ _ _ E) as [H _].
  destruct (H eq_refl) as (body & args & Hs & Hp).
  by exists r, w', body, args.
Defined.

(** X10: the diagnostic stream is append-only, and over a whole run it
    grows by one record per call other than [glGetError]: an operator who
    counts lines counts every intercepted call but the error queries. *)
Theorem X10_diagnostics_count_calls h w t w' :
  run h w = Some (t, w') ->
  exists l,
    stderr w' = stderr w ++ l /\
    length l = length (filter (fun co => is_logged co.1 = true) t).
Proof.
  revert w t. induction h as [| [c | m] h IH]; intros w t E.
  - injection E as <- <-. exists []. by rewrite app_nil_r.
  - apply run_cons_Call in E as (o & w1 & t' & Eo & Er & ->).
    apply observe_Some in Eo as (Ee & _).
    destruct (IH _ _ Er) as (l & Hl & Hlen).
    pose proof (exec_stderr c w _ _ Ee) as Hc.
    rewrite filter_cons. simpl. destruct (is_logged c).
    + destruct Hc as (body & args & Hs & _).
      exists (log_record body args :: l). split.
      * by rewrite Hl, Hs, <- app_assoc.
      * rewrite decide_True by done. simpl. by rewrite Hlen.
    + exists l. split; [by rewrite Hl, Hc |]. by rewrite decide_False.
  - rewrite run_cons_Host in E. destruct (IH _ _ E) as (l & Hl & Hlen). by exists l.
Qed.

Lemma X10_diagnostics_count_calls_witness :
  exists t w' l,
    run demo_history (initial demo_heap) = Some (t, w') /\
    stderr w' = [] ++ l /\
    length l = 5%nat.
Proof.
  destruct (run demo_history (initial demo_heap)) as [[t w'] |] eqn:E;
    [| vm_compute in E; discriminate].
  destruct (X10_diagnostics_count_calls _ _ _ _ E) as (l & Hl & Hlen).
  exists t, w', l. split; [reflexivity |]. split; [exact Hl |].
  rewrite Hlen. vm_compute in E. injection E as <- _. reflexivity.
Defined.

(** ** Diagnostics never feed back *)

Lemma same_but_stderr_refl w : same_but_stderr w w.
Proof. by repeat split. Qed.

Lemma respects_ret {A} (a : A) : respects (ret a).
Proof. intros w1 w2 H. by split. Qed.

Lemma respects_bind {A B} (m : M A) (k : A -> M B) :
  respects m -> (forall a, respects (k a)) -> respects (bind m k).
Proof.
  intros Hm Hk w1 w2 H. specialize (Hm w1 w2 H). unfold bind, same_result in *.
  destruct (m w1) as [[a1 u1] |], (m w2) as [[a2 u2] |]; try done.
  destruct Hm as [-> Hu]. by apply Hk.
Qed.

Lemma respects_LOG fmt args : respects (LOG fmt args).
Proof.
  intros w1 w2 (H1 & H2 & H3). unfold LOG. destruct DEBUG_LOG; simpl; by repeat split.
Qed.

Lemma respects_get_fake_id : respects get_fake_id.
Proof. intros w1 w2 (H1 & H2 & H3). simpl. by repeat split. Qed.

Lemma respects_fake_id_post_incr : respects fake_id_post_incr.
Proof.
  intros w1 w2 (H1 & H2 & H3). simpl. repeat split; simpl; by rewrite ?H1.
Qed.

Lemma respects_store a v : respects (store a v).
Proof.
  intros w1 w2 (H1 & H2 & H3). unfold store, same_result. rewrite H2.
  destruct (heap w2 !! a); [| done]. repeat split; simpl; by rewrite ?H1, ?H2, ?H3.
Qed.

Lemma respects_set_heap m : respects (set_heap m).
Proof. intros w1 w2 (H1 & H2 & H3). simpl. by repeat split. Qed.

Lemma respects_gen_loop fuel n out i : respects (gen_loop fuel n out i).
Proof.
  revert i. induction fuel as [| fuel IH]; intros i; simpl; [apply respects_ret |].
  destruct (i <? n); [| apply respects_ret].
  apply respects_bind; [apply respects_fake_id_post_incr | intros k].
  apply respects_bind; [apply respects_store | intros _]. apply IH.
Qed.

Ltac respects_step :=
  lazymatch goal with
  | |- respects (bind _ _) => apply respects_bind; [| intros ?]
  | |- respects (LOG _ _) => apply respects_LOG
  | |- respects (ret _) => apply respects_ret
  | |- respects (store _ _) => apply respects_store
  | |- respects get_fake_id => apply respects_get_fake_id
  | |- respects fake_id_post_incr => apply respects_fake_id_post_incr
  | |- respects (gen_loop _ _ _ _) => apply respects_gen_loop
  | |- respects (if ?b then _ else _) => destruct b
  end.

Lemma respects_exec c : respects (exec c).
Proof.
  destruct c; simpl; unfold void, uint, int, str;
    unfold_entry;
    unfold glGenTextures, glGenBuffers, glGenVertexArrays, glGenFramebuffers,
      glCreateShader, glCreateProgram, glGetIntegerv, glGetShaderiv, glGetProgramiv;
    repeat respects_step.
Qed.

Lemma respects_observe c : respects (observe c).
Proof.
  intros w1 w2 H. pose proof (respects_exec c w1 w2 H) as He.
  unfold observe, same_result in *.
  destruct (exec c w1) as [[r1 u1] |], (exec c w2) as [[r2 u2] |]; try done.
  destruct He as [-> Hu]. split; [| exact Hu].
  destruct H as (_ & _ & ->). by destruct Hu as (_ & _ & ->).
Qed.

(** X11: nothing the library does depends on what it has printed.  Two
    processes that differ only in their diagnostic streams, taken through the
    same history, fault together or else see the same return values, the same
    stores and the same identifiers call by call, and end with the same
    counter and the same memory. *)
Theorem X11_diagnostics_do_not_feed_back h w1 w2 :
  same_but_stderr w1 w2 ->
  match run h w1, run h w2 with
  | Some (t1, u1), Some (t2, u2) =>
      t1 = t2 /\ fake_id u1 = fake_id u2 /\ heap u1 = heap u2 /\ writes u1 = writes u2
  | None, None => True
  | _, _ => False
  end.
Proof.
  assert (Hrun : respects (run h)).
  { induction h as [| [c | m] h IH]; simpl.
    - apply respects_ret.
    - apply respects_bind; [apply respects_observe | intros o].
      apply respects_bind; [exact IH | intros t]. apply respects_ret.
    - apply respects_bind; [apply respects_set_heap | intros _]. exact IH. }
  intros H. exact (Hrun w1 w2 H).
Qed.

Lemma X11_diagnostics_do_not_feed_back_witness :
  is_Some (run demo_history (initial demo_heap)) /\
  match run demo_history (initial demo_heap),
        run demo_history (World 1 demo_heap [(EmptyString, [Aint 7])] []) with
  | Some (t1, u1), Some (t2, u2) =>
      t1 = t2 /\ fake_id u1 = fake_id u2 /\ heap u1 = heap u2 /\ writes u1 = writes u2
  | None, None => True
  | _, _ => False
  end.
Proof.
  split.
  - destruct (run demo_history (initial demo_heap)) as [[t u] |] eqn:E;
      [eexists; reflexivity | vm_compute in E; discriminate].
  - exact (X11_diagnostics_do_not_feed_back demo_history (initial demo_heap)
             (World 1 demo_heap [(EmptyString, [Aint 7])] [])
             (conj eq_refl (conj eq_refl eq_refl))).
Defined.

(** ** The counter as a witness of allocation *)

(** X12: the counter moves exactly when identifiers are issued.  In a run
    that asks for fewer than 2^32 identifiers in all, the counter ends at the
    value it started from if and only if no identifier was asked for; after
    exactly 2^32 identifiers it is back at the value it started from. *)
Theorem X12_counter_moves_iff_allocation h w t w' :
  counter_ok w ->
  run h w = Some (t, w') ->
  (Z.of_nat (demand h) < UINT_MOD -> (fake_id w' = fake_id w <-> demand h = 0%nat)) /\
  (Z.of_nat (demand h) = UINT_MOD -> fake_id w' = fake_id w).
Proof.
  intros Hk E.
  destruct (run_inv _ _ _ _ Hk E) as (_ & I2 & _).
  rewrite (run_demand _ _ _ _ Hk E) in I2. split.
  - intros Hd. split.
    + intros Heq. rewrite Heq in I2. rewrite <- (wrap_uint_small (fake_id w) Hk) in I2 at 1.
      apply wrap_uint_inj in I2; lia.
    + intros Hz. rewrite I2, Hz, Z.add_0_r. by apply wrap_uint_small.
  - intros Hd. rewrite I2, Hd. unfold wrap_uint.
    rewrite <- (Z.mul_1_l UINT_MOD) at 1. rewrite Z_mod_plus_full.
    by apply Z.mod_small.
Qed.

Lemma X12_counter_moves_iff_allocation_witness :
  exists t w',
    run [Call (GenTextures 0 NULL); Call (DeleteShader 3); Call (GetIntegerv 0 NULL)]
        (World 41 ∅ [] []) = Some (t, w') /\
    fake_id w' = 41.
Proof.
  destruct (run [Call (GenTextures 0 NULL); Call (DeleteShader 3); Call (GetIntegerv 0 NULL)]
                (World 41 ∅ [] [])) as [[t w'] |] eqn:E; [| vm_compute in E; discriminate].
  exists t, w'. split; [reflexivity |].
  assert (Hk : counter_ok (World 41 ∅ [] [])) by (unfold counter_ok, UINT_MOD; simpl; lia).
  destruct (X12_counter_moves_iff_allocation _ _ _ _ Hk E) as [H _].
  apply H; [vm_compute; reflexivity | reflexivity].
Defined.

(** ** Asking a query again *)

(** X13: a query with an output pointer can be repeated at no cost: once a
    call of [glGetIntegerv], [glGetShaderiv] or [glGetProgramiv] has returned,
    the same call made again returns too and leaves the caller's memory and
    the counter exactly as the first call left them. *)
Theorem X13_pointer_query_idempotent c w r w1 :
  is_pointer_query c = true ->
  exec c w = Some (r, w1) ->
  exists w2,
    exec c w1 = Some (r, w2) /\ heap w2 = heap w1 /\ fake_id w2 = fake_id w1.
Proof.
  intros Hq E.
  destruct (pointer_query_inv c w r w1 Hq E) as (-> & F1 & Hcase).
  assert (Hsafe : params_of c = NULL \/ is_Some (heap w1 !! params_of c)).
  { destruct Hcase as [(Hn & _) | (_ & _ & Hh & _)]; [by left | right].
    rewrite Hh, lookup_insert_eq. by eexists. }
  destruct (pointer_query_total c w1 Hq Hsafe) as [[r2 w2] E2].
  destruct (pointer_query_inv c w1 r2 w2 Hq E2) as (-> & F2 & Hcase2).
  exists w2. split; [exact E2 |]. split; [| exact F2].
  destruct Hcase2 as [(_ & Hh2 & _) | (Hn2 & _ & Hh2 & _)]; [exact Hh2 |].
  destruct Hcase as [(Hn & _) | (_ & _ & Hh & _)]; [done |].
  rewrite Hh2, Hh. apply insert_insert_eq.
Qed.

Lemma X13_pointer_query_idempotent_witness :
  exists r w1 w2,
    exec (GetIntegerv 0x0D33 200) (initial demo_heap) = Some (r, w1) /\
    exec (GetIntegerv 0x0D33 200) w1 = Some (r, w2) /\
    heap w2 = heap w1 /\ fake_id w2 = fake_id w1.
Proof.
  destruct (exec (GetIntegerv 0x0D33 200) (initial demo_heap)) as [[r w1] |] eqn:E;
    [| vm_compute in E; discriminate].
  destruct (X13_pointer_query_idempotent (GetIntegerv 0x0D33 200) _ _ _ eq_refl E)
    as (w2 & E2 & Hh & Hf).
  exists r, w1, w2. split; [reflexivity |]. split; [exact E2 |]. split; [exact Hh | exact Hf].
Defined.
